(** * RS485Master: discovery, framing and round-robin polling engine

    A shallow embedding of [RS485Master.js] and the properties of its
    protocol engine.

    Conventions of the embedding.
    - A JavaScript string is a [string]; its code units are the 8-bit
      characters of [ascii], which covers the ASCII wire alphabet of the
      protocol.  On ASCII text [TextEncoder.encode] and
      [TextDecoder.decode] are the identity on code units, so the serial
      stream is modelled as text.
    - The bit operators [<<], [^] and [&] work on 32-bit signed integers;
      the wrap-around is written out in [JS.toInt32].
    - The globals of the script are the fields of [Engine.State].  The
      objects used as dictionaries are finite maps that hold the entries
      the script has stored: the members that an object inherits from its
      prototype are not modelled, so an address is taken not to be the name
      of one of them.  The counters are natural numbers.
    - [setTimeout] appends a pending callback, with its delay, to
      [Engine.timers]; a turn of the event loop runs one callback, one
      chunk of serial data or one click to completion.  The clock is not
      modelled: any pending timer may expire next, which covers every order
      in which the browser can run the callbacks.
    - What the script writes to the serial port is collected in
      [Engine.written], what it appends to the output panel in
      [Engine.logged].  The rendering of the panel and the device grid are
      presentation and are left out; the cut of the panel to its last 100
      lines is the function [Engine.limitLines] on the text of the panel. *)

From Stdlib Require Import ZArith Lia String Ascii List.
From stdpp Require Import gmap strings list pretty.

(* ===================================================================== *)
(** ** JavaScript primitives used by the script *)
(* ===================================================================== *)

Module JS.

Local Open Scope Z_scope.

(** [ToInt32]: reduction modulo 2^32 into the signed range. *)
Definition toInt32 (z : Z) : Z := (z + 2 ^ 31) mod 2 ^ 32 - 2 ^ 31.

(** [a << n] *)
Definition shl (a n : Z) : Z := toInt32 (Z.shiftl (toInt32 a) (n mod 32)).

(** [a ^ b] *)
Definition bxor (a b : Z) : Z := Z.lxor (toInt32 a) (toInt32 b).

(** [a & b] *)
Definition band (a b : Z) : Z := Z.land (toInt32 a) (toInt32 b).

(** [s.charCodeAt(i)] for the character at position [i]. *)
Definition charCode (c : ascii) : Z := Z.of_N (N_of_ascii c).

Definition comma : ascii := ","%char.
Definition newline : ascii := ascii_of_nat 10.

(** White space as [String.prototype.trim] and [parseInt] see it, for code
    units below 256: TAB, LF, VT, FF, CR, SP and NBSP. *)
Definition isWhiteSpace (c : ascii) : bool :=
  let n := charCode c in
  ((9 <=? n) && (n <=? 13)) || (n =? 32) || (n =? 160).

Definition isEmpty (s : string) : bool :=
  match s with EmptyString => true | String _ _ => false end.

Fixpoint trimStart (s : string) : string :=
  match s with
  | EmptyString => EmptyString
  | String c rest => if isWhiteSpace c then trimStart rest else s
  end.

Fixpoint trimEnd (s : string) : string :=
  match s with
  | EmptyString => EmptyString
  | String c rest =>
      let rest' := trimEnd rest in
      if isWhiteSpace c && isEmpty rest' then EmptyString else String c rest'
  end.

(** The first character of [s] is white space. *)
Definition startsWithWhiteSpace (s : string) : bool :=
  match s with
  | EmptyString => false
  | String c _ => isWhiteSpace c
  end.

(** [s.trim()] *)
Definition trim (s : string) : string := trimEnd (trimStart s).

(** [s.split(sep)] for a one-character separator: never the empty list. *)
Fixpoint split (sep : ascii) (s : string) : list string :=
  match s with
  | EmptyString => [EmptyString]
  | String c rest =>
      if Ascii.eqb c sep then EmptyString :: split sep rest
      else match split sep rest with
           | piece :: pieces => String c piece :: pieces
           | [] => [String c EmptyString]
           end
  end.

(** [pieces.join(sep)] for a one-character separator. *)
Fixpoint join (sep : ascii) (pieces : list string) : string :=
  match pieces with
  | [] => EmptyString
  | piece :: rest =>
      match rest with
      | [] => piece
      | _ :: _ => piece +:+ String sep (join sep rest)
      end
  end.

(** [s.includes(sep)] *)
Fixpoint includes (sep : ascii) (s : string) : bool :=
  match s with
  | EmptyString => false
  | String c rest => Ascii.eqb c sep || includes sep rest
  end.

(** Every character of [s] passes the test [P]. *)
Fixpoint allChars (P : ascii -> bool) (s : string) : bool :=
  match s with
  | EmptyString => true
  | String c rest => P c && allChars P rest
  end.

(** [s.lastIndexOf(sep)], [-1] when [sep] does not occur. *)
Fixpoint lastIndexOf (sep : ascii) (s : string) : Z :=
  match s with
  | EmptyString => -1
  | String c rest =>
      let i := lastIndexOf sep rest in
      if 0 <=? i then i + 1 else if Ascii.eqb c sep then 0 else -1
  end.

Fixpoint take (n : nat) (s : string) : string :=
  match n, s with
  | S n', String c rest => String c (take n' rest)
  | _, _ => EmptyString
  end.

Fixpoint drop (n : nat) (s : string) : string :=
  match n, s with
  | S n', String _ rest => drop n' rest
  | _, _ => s
  end.

(** [s.substring(from, to)]: both indices are clamped to [0, length] and
    swapped when out of order. *)
Definition substring (from to : Z) (s : string) : string :=
  let len := Z.of_nat (String.length s) in
  let a := Z.max 0 (Z.min from len) in
  let b := Z.max 0 (Z.min to len) in
  let lo := Z.min a b in
  let hi := Z.max a b in
  take (Z.to_nat (hi - lo)) (drop (Z.to_nat lo) s).

(** [s.substring(from)] *)
Definition substringFrom (from : Z) (s : string) : string :=
  substring from (Z.of_nat (String.length s)) s.

(** The digit of radix 16 that [n.toString(16)] prints for [0 <= n < 16]. *)
Definition hexDigit (n : Z) : ascii :=
  if n <? 10 then ascii_of_N (Z.to_N (48 + n))
  else ascii_of_N (Z.to_N (87 + n)).

Fixpoint hexDigits (fuel : nat) (n : Z) (acc : string) : string :=
  match fuel with
  | O => acc
  | S fuel' =>
      let acc' := String (hexDigit (n mod 16)) acc in
      if n <? 16 then acc' else hexDigits fuel' (n / 16) acc'
  end.

(** [n.toString(16)] for an integer [n]. *)
Definition toString16 (n : Z) : string :=
  if n <? 0 then String "-"%char (hexDigits (S (Z.to_nat (Z.log2 (- n)))) (- n) EmptyString)
  else hexDigits (S (Z.to_nat (Z.log2 n))) n EmptyString.

Definition upperChar (c : ascii) : ascii :=
  let n := charCode c in
  if (97 <=? n) && (n <=? 122) then ascii_of_N (Z.to_N (n - 32)) else c.

(** [s.toUpperCase()] on the letters a-z. *)
Fixpoint toUpperCase (s : string) : string :=
  match s with
  | EmptyString => EmptyString
  | String c rest => String (upperChar c) (toUpperCase rest)
  end.

(** The value of a digit of radix 16, in either case. *)
Definition hexValue (c : ascii) : option Z :=
  let n := charCode c in
  if (48 <=? n) && (n <=? 57) then Some (n - 48)
  else if (65 <=? n) && (n <=? 70) then Some (n - 55)
  else if (97 <=? n) && (n <=? 102) then Some (n - 87)
  else None.

(** The digits that [toString(16).toUpperCase()] prints. *)
Definition isUpperHexDigit (c : ascii) : bool :=
  let n := charCode c in
  ((48 <=? n) && (n <=? 57)) || ((65 <=? n) && (n <=? 70)).

(** The number that a text of digits denotes after the digits [v]. *)
Fixpoint hexNumber (v : Z) (s : string) : Z :=
  match s with
  | EmptyString => v
  | String c rest =>
      hexNumber (16 * v + match hexValue c with Some d => d | None => 0 end) rest
  end.

(** The longest prefix of digits, read most significant digit first. *)
Fixpoint parseDigits (acc : Z) (seen : bool) (s : string) : option Z :=
  match s with
  | EmptyString => if seen then Some acc else None
  | String c rest =>
      match hexValue c with
      | Some d => parseDigits (16 * acc + d) true rest
      | None => if seen then Some acc else None
      end
  end.

Definition stripSign (s : string) : bool * string :=
  match s with
  | String c rest =>
      if Ascii.eqb c "-"%char then (true, rest)
      else if Ascii.eqb c "+"%char then (false, rest)
      else (false, s)
  | EmptyString => (false, s)
  end.

Definition stripHexPrefix (s : string) : string :=
  match s with
  | String c0 (String c1 rest) =>
      if Ascii.eqb c0 "0"%char && (Ascii.eqb c1 "x"%char || Ascii.eqb c1 "X"%char)
      then rest else s
  | _ => s
  end.

(** [parseInt(s, 16)]; [None] stands for [NaN].  The value is the exact
    integer: it is only ever compared with a 16-bit number, and rounding to
    a double changes no integer below 2^53.  [-0] is [0], which [!==] does
    not tell apart. *)
Definition parseInt16 (s : string) : option Z :=
  let (negative, body) := stripSign (trimStart s) in
  match parseDigits 0 false (stripHexPrefix body) with
  | Some v => Some (if negative then - v else v)
  | None => None
  end.

(** Text at which [parseInt] stops reading a number: it is empty, or starts
    with a character that is neither a digit of radix 16 nor an [x]. *)
Definition endsNumber (s : string) : bool :=
  match s with
  | EmptyString => true
  | String c _ =>
      match hexValue c with
      | Some _ => false
      | None => negb (Ascii.eqb c "x"%char || Ascii.eqb c "X"%char)
      end
  end.

End JS.

(* ===================================================================== *)
(** ** The checksum *)
(* ===================================================================== *)

Module Crc.

Local Open Scope Z_scope.

(** The body of the inner [for] loop of [calculateCRC]. *)
Definition crcBit (crc : Z) : Z :=
  let crc :=
    if negb (JS.band crc 0x8000 =? 0)
    then JS.bxor (JS.shl crc 1) 0x1021
    else JS.shl crc 1 in
  JS.band crc 0xFFFF.

(** The body of the outer [for] loop. *)
Definition crcChar (crc : Z) (c : ascii) : Z :=
  Nat.iter 8 crcBit (JS.bxor crc (JS.shl (JS.charCode c) 8)).

(** The outer loop runs over the code units of [data], first to last. *)
Definition calculateCRC (data : string) : Z :=
  fold_left crcChar (list_ascii_of_string data) 0xFFFF.

(** *** The reference CRC, as the specification words it *)

(** One step: shift left one bit, XOR the polynomial when the top bit before
    the shift was set, mask to 16 bits. *)
Definition referenceStep (register : Z) : Z :=
  let shifted := Z.shiftl register 1 in
  (if Z.testbit register 15 then Z.lxor shifted 0x1021 else shifted) mod 2 ^ 16.

(** A byte is XORed into the top byte of the register, then 8 steps. *)
Definition referenceByte (register : Z) (b : Byte.byte) : Z :=
  Nat.iter 8 referenceStep (Z.lxor register (Z.of_N (Byte.to_N b) * 2 ^ 8)).

(** Initial register 0xFFFF. *)
Definition referenceCRC (bytes : list Byte.byte) : Z :=
  fold_left referenceByte bytes 0xFFFF.

End Crc.

(** An ASCII string: every code unit is below 128. *)
Definition isAscii (s : string) : Prop :=
  Forall (fun c => (JS.charCode c < 128)%Z) (list_ascii_of_string s).

(* ===================================================================== *)
(** ** The frame codec *)
(* ===================================================================== *)

Module Codec.

(** A frame without its line terminator:
    [`${message},${crc.toString(16).toUpperCase()}`]. *)
Definition frameLine (message : string) : string :=
  message +:+ "," +:+ JS.toUpperCase (JS.toString16 (Crc.calculateCRC message)).

(** What every sender of the script writes:
    [`${message},${crc.toString(16).toUpperCase()}\n`]. *)
Definition encode (message : string) : string :=
  frameLine message +:+ String JS.newline EmptyString.

(** The outcome of the tests [handleSerialData] makes on a line before it
    acts on the message. *)
Inductive Verdict : Type :=
| Ignored                       (* [if (!data) return] *)
| FramingError                  (* no comma: "Invalid data format (no CRC)" *)
| IntegrityError                (* "CRC check failed" *)
| Valid (message : string).     (* the checksum matches *)

Definition classify (data : string) : Verdict :=
  if JS.isEmpty data then Ignored
  else
    let separatorIndex := JS.lastIndexOf JS.comma data in
    if (separatorIndex =? -1)%Z then FramingError
    else
      let message := JS.substring 0 separatorIndex data in
      let receivedCRC := JS.parseInt16 (JS.substringFrom (separatorIndex + 1) data) in
      let calculatedCRC := Crc.calculateCRC message in
      if bool_decide (receivedCRC = Some calculatedCRC) then Valid message
      else IntegrityError.

(** A corrupted line: it fails the framing test or the integrity test. *)
Definition corrupted (data : string) : Prop :=
  classify data = FramingError \/ classify data = IntegrityError.

(** [processSerialBuffer] cuts the buffer at the line terminators: the
    complete lines, and the incomplete one that stays in the buffer. *)
Definition completeLines (buffer : string) : list string :=
  removelast (JS.split JS.newline buffer).

Definition incompleteLine (buffer : string) : string :=
  List.last (JS.split JS.newline buffer) EmptyString.

(** The decoder: the verdict on every complete line of the buffer extended
    with the new text, and the text kept for the next call. *)
Definition decode (buffer text : string) : list Verdict * string :=
  let buffer' := buffer +:+ text in
  (map (fun line => classify (JS.trim line)) (completeLines buffer'),
   incompleteLine buffer').

End Codec.

(* ===================================================================== *)
(** ** The engine *)
(* ===================================================================== *)

Module Engine.

Import Codec.

(** The callbacks the script hands to [setTimeout]. *)
Inductive Task : Type :=
| StartDiscovery                                (* [startDiscovery] *)
| DiscoveryCheck                                (* the arrow function in [startDiscovery] *)
| RequestTemperature                            (* [requestTemperature] *)
| ConnectedResume (address : string) (i : nat). (* [sendConnectedMessage] after the [await] of round [i] *)

Record State : Type := mkState {
  deviceAddresses : list string;
  deviceTemperatures : gmap string string;
  connectedDevices : gmap string bool;
  confirmationRetries : gmap string nat;
  errorCounters : gmap string nat;
  discoveryAttempts : nat;
  currentDeviceIndex : nat;
  isSampling : bool;
  serialBuffer : string;
  written : list string;
  logged : list string;
  timers : list (nat * Task)
}.

Definition maxDiscoveryAttempts : nat := 1000.
Definition waitTime : nat := 100.
Definition connectedMessageRetries : nat := 3.
Definition maxErrorCount : nat := 5.

(** The globals as the script declares them. *)
Definition initial : State :=
  mkState [] ∅ ∅ ∅ ∅ 0 0 false EmptyString [] [] [].

(** *** Assignments and effects *)

Definition setRegistry (addresses : list string) (temperatures : gmap string string)
    (connected : gmap string bool) (retries : gmap string nat)
    (errors : gmap string nat) (s : State) : State :=
  mkState addresses temperatures connected retries errors
    (discoveryAttempts s) (currentDeviceIndex s) (isSampling s)
    (serialBuffer s) (written s) (logged s) (timers s).

Definition setTemperatures (temperatures : gmap string string) (s : State) : State :=
  setRegistry (deviceAddresses s) temperatures (connectedDevices s)
    (confirmationRetries s) (errorCounters s) s.

Definition setConnected (connected : gmap string bool) (s : State) : State :=
  setRegistry (deviceAddresses s) (deviceTemperatures s) connected
    (confirmationRetries s) (errorCounters s) s.

Definition setErrorCounters (errors : gmap string nat) (s : State) : State :=
  setRegistry (deviceAddresses s) (deviceTemperatures s) (connectedDevices s)
    (confirmationRetries s) errors s.

Definition setDiscoveryAttempts (n : nat) (s : State) : State :=
  mkState (deviceAddresses s) (deviceTemperatures s) (connectedDevices s)
    (confirmationRetries s) (errorCounters s)
    n (currentDeviceIndex s) (isSampling s)
    (serialBuffer s) (written s) (logged s) (timers s).

Definition setCurrentDeviceIndex (i : nat) (s : State) : State :=
  mkState (deviceAddresses s) (deviceTemperatures s) (connectedDevices s)
    (confirmationRetries s) (errorCounters s)
    (discoveryAttempts s) i (isSampling s)
    (serialBuffer s) (written s) (logged s) (timers s).

Definition setSampling (b : bool) (s : State) : State :=
  mkState (deviceAddresses s) (deviceTemperatures s) (connectedDevices s)
    (confirmationRetries s) (errorCounters s)
    (discoveryAttempts s) (currentDeviceIndex s) b
    (serialBuffer s) (written s) (logged s) (timers s).

Definition setSerialBuffer (buffer : string) (s : State) : State :=
  mkState (deviceAddresses s) (deviceTemperatures s) (connectedDevices s)
    (confirmationRetries s) (errorCounters s)
    (discoveryAttempts s) (currentDeviceIndex s) (isSampling s)
    buffer (written s) (logged s) (timers s).

Definition setTimers (pending : list (nat * Task)) (s : State) : State :=
  mkState (deviceAddresses s) (deviceTemperatures s) (connectedDevices s)
    (confirmationRetries s) (errorCounters s)
    (discoveryAttempts s) (currentDeviceIndex s) (isSampling s)
    (serialBuffer s) (written s) (logged s) pending.

(** [writer.write(new TextEncoder().encode(frame))] *)
Definition write (frame : string) (s : State) : State :=
  mkState (deviceAddresses s) (deviceTemperatures s) (connectedDevices s)
    (confirmationRetries s) (errorCounters s)
    (discoveryAttempts s) (currentDeviceIndex s) (isSampling s)
    (serialBuffer s) (written s ++ [frame]) (logged s) (timers s).

(** [outputElement.textContent += line + "\n"] *)
Definition log (line : string) (s : State) : State :=
  mkState (deviceAddresses s) (deviceTemperatures s) (connectedDevices s)
    (confirmationRetries s) (errorCounters s)
    (discoveryAttempts s) (currentDeviceIndex s) (isSampling s)
    (serialBuffer s) (written s) (logged s ++ [line]) (timers s).

(** [setTimeout(task, delay)] *)
Definition setTimeout (task : Task) (delay : nat) (s : State) : State :=
  setTimers (timers s ++ [(delay, task)]) s.

(** *** Reading the JavaScript values *)

(** [deviceAddresses[currentDeviceIndex]]; [None] is [undefined]. *)
Definition deviceAt (s : State) : option string :=
  deviceAddresses s !! currentDeviceIndex s.

(** A string or [undefined] inside a template literal. *)
Definition interpolate (v : option string) : string :=
  match v with Some a => a | None => "undefined" end.

(** [errorCounters[address] || 0] *)
Definition errorCountOf (s : State) (address : string) : nat :=
  match errorCounters s !! address with Some n => n | None => 0 end.

(** The truth value of [connectedDevices[address]]. *)
Definition isConnected (s : State) (address : string) : bool :=
  match connectedDevices s !! address with Some b => b | None => false end.

(** [deviceAddresses.includes(address)] *)
Definition isRegistered (s : State) (address : string) : bool :=
  bool_decide (address ∈ deviceAddresses s).

(** The first and the second element of [message.split(",")]. *)
Definition addressField (message : string) : string :=
  nth 0 (JS.split JS.comma message) EmptyString.

(** The script reads it only when the message includes a comma, so that
    the second element exists. *)
Definition tempDataField (message : string) : string :=
  nth 1 (JS.split JS.comma message) EmptyString.

(** [(currentDeviceIndex + 1) % deviceAddresses.length] *)
Definition nextIndex (s : State) : nat :=
  (currentDeviceIndex s + 1) mod length (deviceAddresses s).

(** *** The functions of the script *)

Definition requestTemperature (s : State) : State :=
  if (length (deviceAddresses s) =? 0) || negb (isSampling s) then s
  else
    let address := deviceAt s in
    let message := interpolate address +:+ ",READTEMP" in
    log ("Sent: " +:+ message +:+ ",CRC") (write (encode message) s).

(** [sendConnectedMessage] from the test of its loop at round [i] up to the
    next [await], or to its end. *)
Definition connectedLoop (address : string) (i : nat) (s : State) : State :=
  if i <? connectedMessageRetries then
    let confirmationMessage := address +:+ ",CONNECTED" in
    let s := write (encode confirmationMessage) s in
    let s := log ("Sent: " +:+ confirmationMessage +:+ ",CRC (Retry "
                  +:+ pretty (i + 1) +:+ ")") s in
    setTimeout (ConnectedResume address i) 100 s
  else
    setConnected (<[address := true]> (connectedDevices s)) s.

Definition sendConnectedMessage (address : string) (s : State) : State :=
  connectedLoop address 0 s.

Definition handleCorruptedData (s : State) : State :=
  match deviceAt s with
  | None => s
  | Some address =>
      if JS.isEmpty address then s
      else
        let s := setErrorCounters
                   (<[address := errorCountOf s address + 1]> (errorCounters s)) s in
        let s :=
          if maxErrorCount <? errorCountOf s address then
            setCurrentDeviceIndex (nextIndex s)
              (log ("Too many errors for device " +:+ address +:+ ". Skipping...") s)
          else s in
        setTimeout RequestTemperature waitTime s
  end.

(** Lines 120 to 137 of [handleSerialData]: a reading of a known device. *)
Definition recordReading (address tempData : string) (s : State) : State :=
  let s := setTemperatures (<[address := tempData]> (deviceTemperatures s)) s in
  let s := setErrorCounters (<[address := 0]> (errorCounters s)) s in
  let s := setCurrentDeviceIndex (nextIndex s) s in
  if isSampling s then setTimeout RequestTemperature waitTime s else s.

(** Lines 140 to 148: a device announces itself. *)
Definition registerDevice (message : string) (s : State) : State :=
  let s := setRegistry
             (deviceAddresses s ++ [message])
             (<[message := "N/A"]> (deviceTemperatures s))
             (<[message := false]> (connectedDevices s))
             (<[message := 0]> (confirmationRetries s))
             (<[message := 0]> (errorCounters s)) s in
  sendConnectedMessage message s.

(** [handleSerialData] once the checksum of [message] has been accepted. *)
Definition handleMessage (message : string) (s : State) : State :=
  if JS.includes JS.comma message && isRegistered s (addressField message) then
    recordReading (addressField message) (tempDataField message) s
  else if negb (isConnected s message) && negb (isRegistered s message) then
    registerDevice message s
  else s.

Definition handleSerialData (data : string) (s : State) : State :=
  match classify data with
  | Ignored => s
  | FramingError =>
      handleCorruptedData
        (log "Invalid data format (no CRC)" (log ("Received: " +:+ data) s))
  | IntegrityError =>
      handleCorruptedData
        (log "CRC check failed" (log ("Received: " +:+ data) s))
  | Valid message =>
      handleMessage message (log ("Received: " +:+ data) s)
  end.

Definition processSerialBuffer (s : State) : State :=
  let buffer := serialBuffer s in
  let s := setSerialBuffer (incompleteLine buffer) s in
  fold_left (fun s line => handleSerialData (JS.trim line) s)
    (completeLines buffer) s.

(** One round of the loop of [readSerialData]: a chunk of text arrives. *)
Definition receive (text : string) (s : State) : State :=
  processSerialBuffer (setSerialBuffer (serialBuffer s +:+ text) s).

Definition startDiscovery (s : State) : State :=
  if maxDiscoveryAttempts <=? discoveryAttempts s then
    log "Max discovery attempts reached. Stopping discovery." s
  else
    let s := setDiscoveryAttempts (discoveryAttempts s + 1) s in
    let s := write (encode "DISCOVER") s in
    let s := log "Sent: DISCOVER,CRC" s in
    setTimeout DiscoveryCheck waitTime s.

(** The arrow function that [startDiscovery] schedules. *)
Definition discoveryCheck (s : State) : State :=
  if length (deviceAddresses s) <? 4 then
    startDiscovery
      (log ("Retrying discovery (Attempt " +:+ pretty (discoveryAttempts s) +:+ ")...") s)
  else
    let s := log "All devices connected. Discovery complete." s in
    let s := setSampling true s in
    requestTemperature s.

Definition resetDiscovery (s : State) : State :=
  let s := write (encode "RESET") s in
  let s := log "Sent: RESET,CRC" s in
  let s := setRegistry [] ∅ ∅ ∅ ∅ s in
  let s := setDiscoveryAttempts 0 s in
  let s := setCurrentDeviceIndex 0 s in
  let s := setSampling false s in
  let s := log "Reset command sent. Discovery process reset." s in
  setTimeout StartDiscovery 1000 s.

(** [connectSerial] when the port opens: the [try] block runs to its end. *)
Definition connectSerial (s : State) : State :=
  let s := log "Connected to Serial Device" s in
  let s := resetDiscovery s in
  setTimeout StartDiscovery 2000 s.

(** *** The event loop *)

(** The body of a callback when its timer expires. *)
Definition fire (task : Task) (s : State) : State :=
  match task with
  | StartDiscovery => startDiscovery s
  | DiscoveryCheck => discoveryCheck s
  | RequestTemperature => requestTemperature s
  | ConnectedResume address i => connectedLoop address (i + 1) s
  end.

Inductive Event : Type :=
| Expire (k : nat)         (* the pending timer number [k] expires *)
| Chunk (text : string)    (* [reader.read()] delivers text *)
| ClickReset.              (* a click on the reset button *)

(** One turn of the event loop; [None] when no timer number [k] is pending. *)
Definition step (e : Event) (s : State) : option State :=
  match e with
  | Expire k =>
      match timers s !! k with
      | Some (_, task) => Some (fire task (setTimers (delete k (timers s)) s))
      | None => None
      end
  | Chunk text => Some (receive text s)
  | ClickReset => Some (resetDiscovery s)
  end.

Fixpoint run (events : list Event) (s : State) : option State :=
  match events with
  | [] => Some s
  | e :: rest =>
      match step e s with
      | Some s' => run rest s'
      | None => None
      end
  end.

(** The state in which the read loop starts. *)
Definition connected : State := connectSerial initial.

(** *** Scenarios *)




(** A device announces itself while the engine waits to discover. *)
Definition oneDeviceFound : State := receive (encode "D1") connected.

(** Five chunks after the connection: devices A and B announce themselves,
    a reading from A moves the cursor to B, a corrupted line is counted
    against B, and a second reading from A brings the cursor back to A. *)
Definition staleCount : State :=
  receive (encode "A,1")
    (receive ("garbage" +:+ String JS.newline EmptyString)
       (receive (encode "A,1")
          (receive (encode "B") (receive (encode "A") connected)))).

(** Four devices are registered, sampling is active and the cursor is on
    the first. *)
Definition polling : State :=
  mkState ["A"; "B"; "C"; "D"] ∅ ∅ ∅ ∅ 0 0 true EmptyString [] [] [].

(** The first round of discovery is answered by four devices within the
    100 ms before the check. *)
Definition unconfirmedStart : option State :=
  run [Expire 0; Chunk (encode "D1"); Chunk (encode "D2");
       Chunk (encode "D3"); Chunk (encode "D4"); Expire 1] connected.

(** *** Observations *)


(** The frames for [message] among those written. *)
Definition sentCount (message : string) (s : State) : nat :=
  length (filter (fun frame => frame = encode message) (written s)).

Definition isDiscoveryTask (task : Task) : bool :=
  match task with
  | StartDiscovery | DiscoveryCheck => true
  | _ => false
  end.

(** The pending callbacks of the discovery loop. *)
Definition discoveryPending (s : State) : nat :=
  length (filter (fun t => isDiscoveryTask (snd t) = true) (timers s)).

Definition isReset (e : Event) : bool :=
  match e with ClickReset => true | _ => false end.

(** What a turn outside the discovery loop keeps: the attempts, the
    sampling flag, the [DISCOVER] frames written and the pending callbacks
    of the loop; the registry does not shrink. *)
Definition quiet (s s' : State) : Prop :=
  discoveryAttempts s' = discoveryAttempts s
  /\ isSampling s' = isSampling s
  /\ sentCount "DISCOVER" s' = sentCount "DISCOVER" s
  /\ discoveryPending s' = discoveryPending s
  /\ length (deviceAddresses s) <= length (deviceAddresses s').


(** Every confirmed flag and every pending round of a handshake belongs to
    a registered device. *)
Definition handshakesRegistered (s : State) : Prop :=
  (forall a b, connectedDevices s !! a = Some b -> a ∈ deviceAddresses s)
  /\ (forall d a i, (d, ConnectedResume a i) ∈ timers s -> a ∈ deviceAddresses s).


(** The device of [oneDeviceFound] has been sent its third confirmation:
    the timers of the first two pauses have expired, the third is
    pending. *)
Definition thirdPause : State :=
  let s1 := fire (ConnectedResume "D1" 0)
              (setTimers (delete 2 (timers oneDeviceFound)) oneDeviceFound) in
  fire (ConnectedResume "D1" 1) (setTimers (delete 2 (timers s1)) s1).

(** *** The session *)

(** The four kinds of frames that the script writes. *)
Definition isMasterFrame (frame : string) : Prop :=
  frame = encode "RESET"
  \/ frame = encode "DISCOVER"
  \/ (exists a, frame = encode (a +:+ ",CONNECTED"))
  \/ (exists a, frame = encode (a +:+ ",READTEMP")).

(** What one handler or one callback may do to the session: register one
    new address, move the cursor to the next device of a non-empty
    registry, start sampling with four devices, use one attempt that is
    left, and write frames of the four kinds. *)
Definition orderly (s s' : State) : Prop :=
  (deviceAddresses s' = deviceAddresses s
   \/ exists a, (a ∉ deviceAddresses s) /\ deviceAddresses s' = deviceAddresses s ++ [a])
  /\ (currentDeviceIndex s' = currentDeviceIndex s
      \/ (deviceAddresses s <> [] /\ currentDeviceIndex s' = nextIndex s))
  /\ (isSampling s' = isSampling s
      \/ (isSampling s' = true /\ 4 <= length (deviceAddresses s)))
  /\ (discoveryAttempts s' = discoveryAttempts s
      \/ (discoveryAttempts s < maxDiscoveryAttempts
          /\ discoveryAttempts s' = discoveryAttempts s + 1))
  /\ (written s' = written s
      \/ exists frame, isMasterFrame frame /\ written s' = written s ++ [frame]).

(** The invariant of the session, resets included. *)
Definition sessionInv (s : State) : Prop :=
  NoDup (deviceAddresses s)
  /\ currentDeviceIndex s <= length (deviceAddresses s) - 1
  /\ (isSampling s = true -> 4 <= length (deviceAddresses s))
  /\ discoveryAttempts s <= maxDiscoveryAttempts
  /\ Forall isMasterFrame (written s).

(** The cut that [handleSerialData] applies to the text of the output panel
    after it has appended the received line:
    [lines.slice(lines.length - 100).join("\n")] when there are more than
    100 pieces. *)
Definition limitLines (textContent : string) : string :=
  let lines := JS.split JS.newline textContent in
  if 100 <? length lines then
    JS.join JS.newline (drop (length lines - 100) lines)
  else textContent.

(** Every registered address has an entry in each dictionary. *)
Definition hasEntries (s : State) : Prop :=
  forall a, a ∈ deviceAddresses s ->
    is_Some (deviceTemperatures s !! a)
    /\ is_Some (errorCounters s !! a)
    /\ is_Some (connectedDevices s !! a).

End Engine.

(* ===================================================================== *)
(** ** Facts about the string primitives *)
(* ===================================================================== *)

Section StringFacts.

Import JS.
Local Open Scope Z_scope.

Lemma sapp_cons c (s t : string) : String c s +:+ t = String c (s +:+ t).
Proof. reflexivity. Qed.

Lemma sapp_nil_l (t : string) : EmptyString +:+ t = t.
Proof. reflexivity. Qed.

Lemma sapp_nil_r (s : string) : s +:+ EmptyString = s.
Proof. induction s as [|c s IH]; [reflexivity|]. rewrite sapp_cons, IH. reflexivity. Qed.

Lemma sapp_assoc (s t u : string) : (s +:+ t) +:+ u = s +:+ (t +:+ u).
Proof.
  induction s as [|c s IH]; [reflexivity|]. rewrite !sapp_cons, IH. reflexivity.
Qed.

Lemma slength_app (s t : string) :
  String.length (s +:+ t) = (String.length s + String.length t)%nat.
Proof.
  induction s as [|c s IH]; [reflexivity|]. rewrite sapp_cons. simpl. rewrite IH. reflexivity.
Qed.

Lemma allChars_app P (s t : string) :
  allChars P (s +:+ t) = allChars P s && allChars P t.
Proof.
  induction s as [|c s IH]; [reflexivity|]. rewrite sapp_cons. simpl.
  rewrite IH. apply andb_assoc.
Qed.

Lemma includes_app c (s t : string) :
  includes c (s +:+ t) = includes c s || includes c t.
Proof.
  induction s as [|a s IH]; [reflexivity|]. rewrite sapp_cons. simpl.
  rewrite IH. apply orb_assoc.
Qed.

(** A string of characters other than [c] does not include [c]. *)
Lemma allChars_excludes P c (s : string) :
  P c = false -> allChars P s = true -> includes c s = false.
Proof.
  intros Hc. induction s as [|a s IH]; [reflexivity|]. simpl.
  intros [Ha Hs]%andb_prop. rewrite (IH Hs), orb_false_r.
  destruct (Ascii.eqb_spec a c) as [->|]; [congruence|reflexivity].
Qed.

Lemma lastIndexOf_lower c (s : string) : -1 <= lastIndexOf c s.
Proof.
  induction s as [|a s IH]; simpl; [lia|].
  destruct (Z.leb_spec 0 (lastIndexOf c s)); [lia|].
  destruct (Ascii.eqb a c); lia.
Qed.

Lemma lastIndexOf_absent c (s : string) :
  includes c s = false <-> lastIndexOf c s = -1.
Proof.
  induction s as [|a s IH]; simpl; [tauto|].
  pose proof (lastIndexOf_lower c s).
  destruct (Z.leb_spec 0 (lastIndexOf c s)).
  - split; [|lia]. intros [_ Hs]%orb_false_elim. apply IH in Hs. lia.
  - destruct (Ascii.eqb a c); simpl; [split; [discriminate|lia]|].
    split; [reflexivity|]. intros _. apply IH. lia.
Qed.

(** The last comma of [m,t] when [t] has none. *)
Lemma lastIndexOf_app c (m t : string) :
  includes c t = false ->
  lastIndexOf c (m +:+ String c t) = Z.of_nat (String.length m).
Proof.
  intros Ht. induction m as [|a m IH].
  - rewrite sapp_nil_l. simpl. apply lastIndexOf_absent in Ht. rewrite Ht.
    simpl. rewrite Ascii.eqb_refl. reflexivity.
  - rewrite sapp_cons. simpl lastIndexOf. rewrite IH.
    destruct (Z.leb_spec 0 (Z.of_nat (String.length m))); [|lia].
    simpl String.length. lia.
Qed.

Lemma take_app (m x : string) : take (String.length m) (m +:+ x) = m.
Proof.
  induction m as [|a m IH]; [destruct x; reflexivity|].
  rewrite sapp_cons. simpl. rewrite IH. reflexivity.
Qed.

Lemma take_all (s : string) : take (String.length s) s = s.
Proof. rewrite <- (sapp_nil_r s) at 2. apply take_app. Qed.

Lemma drop_app (m x : string) : drop (String.length m) (m +:+ x) = x.
Proof.
  induction m as [|a m IH]; [destruct x; reflexivity|].
  rewrite sapp_cons. simpl. exact IH.
Qed.

Lemma substring_prefix (m x : string) :
  substring 0 (Z.of_nat (String.length m)) (m +:+ x) = m.
Proof.
  unfold substring. rewrite slength_app.
  replace (Z.max 0 (Z.min 0 _)) with 0 by lia.
  replace (Z.max 0 (Z.min (Z.of_nat (String.length m)) _))
    with (Z.of_nat (String.length m)) by lia.
  replace (Z.min 0 _) with 0 by lia.
  replace (Z.max 0 _) with (Z.of_nat (String.length m)) by lia.
  rewrite Z.sub_0_r, Nat2Z.id. change (Z.to_nat 0) with 0%nat.
  change (drop 0 (m +:+ x)) with (m +:+ x). apply take_app.
Qed.

Lemma substringFrom_suffix (m t : string) c :
  substringFrom (Z.of_nat (String.length m) + 1) (m +:+ String c t) = t.
Proof.
  unfold substringFrom, substring. rewrite slength_app. simpl String.length.
  set (lm := String.length m). set (lt := String.length t).
  replace (Z.max 0 (Z.min (Z.of_nat lm + 1) _)) with (Z.of_nat (lm + 1)) by lia.
  replace (Z.max 0 (Z.min (Z.of_nat (lm + S lt)) _))
    with (Z.of_nat (lm + S lt)) by lia.
  replace (Z.min _ _) with (Z.of_nat (lm + 1)) by lia.
  replace (Z.max _ _) with (Z.of_nat (lm + S lt)) by lia.
  replace (Z.of_nat (lm + S lt) - Z.of_nat (lm + 1)) with (Z.of_nat lt) by lia.
  rewrite !Nat2Z.id.
  replace (m +:+ String c t) with ((m +:+ String c EmptyString) +:+ t)
    by (rewrite sapp_assoc; reflexivity).
  replace (lm + 1)%nat with (String.length (m +:+ String c EmptyString))
    by (rewrite slength_app; reflexivity).
  rewrite drop_app. apply take_all.
Qed.

End StringFacts.

(* ===================================================================== *)
(** ** Printing and parsing the checksum *)
(* ===================================================================== *)

Section HexFacts.

Import JS.
Local Open Scope Z_scope.

(** What the sixteen digits print as, and read back as. *)
Lemma hexDigit_roundtrip d :
  0 <= d < 16 ->
  isUpperHexDigit (upperChar (hexDigit d)) = true
  /\ hexValue (upperChar (hexDigit d)) = Some d.
Proof.
  intros Hd.
  assert (Hcases : d = 0 \/ d = 1 \/ d = 2 \/ d = 3 \/ d = 4 \/ d = 5 \/ d = 6
                   \/ d = 7 \/ d = 8 \/ d = 9 \/ d = 10 \/ d = 11 \/ d = 12
                   \/ d = 13 \/ d = 14 \/ d = 15) by lia.
  repeat (destruct Hcases as [->|Hcases]; [split; reflexivity|]).
  subst d. split; reflexivity.
Qed.

(** A digit is no white space, no sign, no [x], no comma and no line
    terminator. *)
Lemma upperHexDigit_plain c :
  isUpperHexDigit c = true ->
  isWhiteSpace c = false
  /\ Ascii.eqb c "-" = false /\ Ascii.eqb c "+" = false
  /\ Ascii.eqb c "x" = false /\ Ascii.eqb c "X" = false
  /\ Ascii.eqb c comma = false /\ Ascii.eqb c newline = false
  /\ is_Some (hexValue c).
Proof.
  destruct c as [[] [] [] [] [] [] [] []]; vm_compute; intros H;
    try discriminate H; repeat split; eauto.
Qed.

Lemma toUpperCase_app (s t : string) :
  toUpperCase (s +:+ t) = toUpperCase s +:+ toUpperCase t.
Proof.
  induction s as [|c s IH]; [reflexivity|].
  rewrite sapp_cons. simpl. rewrite IH. reflexivity.
Qed.

Lemma hexDigits_acc fuel n (acc : string) :
  hexDigits fuel n acc = hexDigits fuel n EmptyString +:+ acc.
Proof.
  revert n acc. induction fuel as [|fuel IH]; intros n acc; [reflexivity|].
  simpl. destruct (n <? 16); [reflexivity|].
  rewrite (IH _ (String _ acc)), (IH _ (String _ EmptyString)).
  rewrite sapp_assoc. reflexivity.
Qed.

(** The digits of [n], most significant first, in upper case. *)
Lemma hexDigits_step fuel n :
  toUpperCase (hexDigits (S fuel) n EmptyString) =
  if n <? 16 then String (upperChar (hexDigit (n mod 16))) EmptyString
  else toUpperCase (hexDigits fuel (n / 16) EmptyString)
         +:+ String (upperChar (hexDigit (n mod 16))) EmptyString.
Proof.
  simpl. destruct (n <? 16); [reflexivity|].
  rewrite hexDigits_acc, toUpperCase_app. reflexivity.
Qed.

Lemma hexDigits_upper fuel n :
  0 <= n ->
  allChars isUpperHexDigit (toUpperCase (hexDigits fuel n EmptyString)) = true.
Proof.
  revert n. induction fuel as [|fuel IH]; intros n Hn; [reflexivity|].
  rewrite hexDigits_step.
  destruct (hexDigit_roundtrip (n mod 16)) as [Hd _]; [apply Z.mod_pos_bound; lia|].
  destruct (n <? 16).
  - simpl. rewrite Hd. reflexivity.
  - rewrite allChars_app, IH by (apply Z.div_pos; lia). simpl. rewrite Hd. reflexivity.
Qed.

Lemma hexNumber_app v (s t : string) :
  hexNumber v (s +:+ t) = hexNumber (hexNumber v s) t.
Proof.
  revert v. induction s as [|c s IH]; intros v; [reflexivity|].
  rewrite sapp_cons. simpl. apply IH.
Qed.

Lemma hexDigits_value fuel n :
  0 <= n < 16 ^ Z.of_nat fuel ->
  hexNumber 0 (toUpperCase (hexDigits fuel n EmptyString)) = n.
Proof.
  revert n. induction fuel as [|fuel IH]; intros n Hn.
  - simpl in *. lia.
  - rewrite hexDigits_step.
    destruct (hexDigit_roundtrip (n mod 16)) as [_ Hd]; [apply Z.mod_pos_bound; lia|].
    destruct (Z.ltb_spec n 16).
    + simpl. rewrite Hd. rewrite Z.mod_small by lia. lia.
    + rewrite hexNumber_app, IH.
      * simpl. rewrite Hd. pose proof (Z.div_mod n 16). lia.
      * rewrite Nat2Z.inj_succ, Z.pow_succ_r in Hn by lia.
        split; [apply Z.div_pos; lia|apply Z.div_lt_upper_bound; lia].
Qed.

Lemma hexDigits_nonempty fuel n :
  isEmpty (toUpperCase (hexDigits (S fuel) n EmptyString)) = false.
Proof.
  rewrite hexDigits_step. destruct (n <? 16); [reflexivity|].
  destruct (toUpperCase _); reflexivity.
Qed.

Lemma log2_fuel n : 0 <= n -> n < 16 ^ Z.of_nat (S (Z.to_nat (Z.log2 n))).
Proof.
  intros Hn. rewrite Nat2Z.inj_succ, Z2Nat.id by apply Z.log2_nonneg.
  destruct (Z.eq_dec n 0) as [->|Hne]; [reflexivity|].
  destruct (Z.log2_spec n) as [_ Hlt]; [lia|].
  eapply Z.lt_le_trans; [exact Hlt|].
  apply Z.pow_le_mono_l. lia.
Qed.

(** The digits are read up to the end of the text. *)
Lemma parseDigits_upper v (s : string) :
  allChars isUpperHexDigit s = true ->
  parseDigits v true s = Some (hexNumber v s).
Proof.
  revert v. induction s as [|c s IH]; intros v; [reflexivity|].
  simpl. intros [Hc Hs]%andb_prop.
  destruct (upperHexDigit_plain c Hc) as (_ & _ & _ & _ & _ & _ & _ & [d Hd]).
  rewrite Hd. simpl. apply IH. exact Hs.
Qed.

Lemma parseInt16_upper (s : string) :
  isEmpty s = false ->
  allChars isUpperHexDigit s = true ->
  parseInt16 s = Some (hexNumber 0 s).
Proof.
  destruct s as [|c s]; [discriminate|]. intros _ Hall.
  pose proof Hall as [Hc Hs]%andb_prop.
  destruct (upperHexDigit_plain c Hc) as (Hws & Hminus & Hplus & _ & _ & _ & _ & [d Hd]).
  unfold parseInt16. simpl trimStart. rewrite Hws.
  unfold stripSign. rewrite Hminus, Hplus.
  assert (Hprefix : stripHexPrefix (String c s) = String c s).
  { destruct s as [|c1 s]; [reflexivity|]. simpl in Hs.
    apply andb_prop in Hs as [Hc1 _].
    destruct (upperHexDigit_plain c1 Hc1) as (_ & _ & _ & Hx & HX & _).
    simpl. rewrite Hx, HX, andb_false_r. reflexivity. }
  rewrite Hprefix. simpl parseDigits. rewrite Hd.
  rewrite (parseDigits_upper _ s Hs). simpl. rewrite Hd. reflexivity.
Qed.

(** The checksum text of the frames: [n.toString(16).toUpperCase()]. *)
Lemma checksumText_facts n :
  0 <= n ->
  isEmpty (toUpperCase (toString16 n)) = false
  /\ allChars isUpperHexDigit (toUpperCase (toString16 n)) = true
  /\ parseInt16 (toUpperCase (toString16 n)) = Some n.
Proof.
  intros Hn. unfold toString16.
  destruct (Z.ltb_spec n 0); [lia|].
  assert (Hne := hexDigits_nonempty (Z.to_nat (Z.log2 n)) n).
  assert (Hall := hexDigits_upper (S (Z.to_nat (Z.log2 n))) n Hn).
  split; [exact Hne|]. split; [exact Hall|].
  rewrite (parseInt16_upper _ Hne Hall). f_equal.
  apply hexDigits_value. split; [lia|apply log2_fuel; lia].
Qed.

Lemma upperHex_excludes c (s : string) :
  isUpperHexDigit c = false -> allChars isUpperHexDigit s = true ->
  includes c s = false.
Proof. apply allChars_excludes. Qed.

End HexFacts.

(* ===================================================================== *)
(** ** The checksum against its reference *)
(* ===================================================================== *)

(** Two folds that agree step by step on the states of an invariant. *)
Lemma fold_left_agree {A B C : Type} (f : A -> B -> A) (g : A -> C -> A)
    (h : B -> C) (P : A -> Prop) :
  (forall a b, P a -> f a b = g a (h b) /\ P (g a (h b))) ->
  forall l a, P a ->
    fold_left f l a = fold_left g (map h l) a /\ P (fold_left f l a).
Proof.
  intros Hstep l. induction l as [|b l IH]; intros a Ha.
  - split; [reflexivity|exact Ha].
  - destruct (Hstep a b Ha) as [Heq HP]. cbn [fold_left map].
    rewrite Heq. apply IH. exact HP.
Qed.

Section CrcReference.

Import JS Crc.
Local Open Scope Z_scope.

Lemma toInt32_small z : - 2 ^ 31 <= z < 2 ^ 31 -> toInt32 z = z.
Proof. intros H. unfold toInt32. rewrite Z.mod_small; lia. Qed.

Lemma lxor_bound a b n :
  0 < n -> 0 <= a < 2 ^ n -> 0 <= b < 2 ^ n -> 0 <= Z.lxor a b < 2 ^ n.
Proof.
  intros Hn Ha Hb. split; [apply Z.lxor_nonneg; lia|].
  destruct (Z.eq_dec (Z.lxor a b) 0) as [->|Hne]; [apply Z.pow_pos_nonneg; lia|].
  assert (0 <= Z.lxor a b) by (apply Z.lxor_nonneg; lia).
  apply Z.log2_lt_pow2; [lia|].
  assert (Hl := Z.log2_lxor a b (proj1 Ha) (proj1 Hb)).
  assert (Z.log2 a < n).
  { destruct (Z.eq_dec a 0) as [->|]; [simpl; lia|]. apply Z.log2_lt_pow2; lia. }
  assert (Z.log2 b < n).
  { destruct (Z.eq_dec b 0) as [->|]; [simpl; lia|]. apply Z.log2_lt_pow2; lia. }
  lia.
Qed.

(** [crc & 0x8000] isolates the top bit of a 16-bit register. *)
Lemma land_bit15 r : Z.land r 0x8000 = if Z.testbit r 15 then 0x8000 else 0.
Proof.
  apply Z.bits_inj'. intros n Hn. rewrite Z.land_spec.
  change 0x8000 with (2 ^ 15). rewrite Z.pow2_bits_eqb by lia.
  destruct (Z.testbit r 15) eqn:E.
  - rewrite Z.pow2_bits_eqb by lia.
    destruct (Z.eqb_spec 15 n) as [<-|Hne]; [rewrite E; reflexivity|apply andb_false_r].
  - rewrite Z.bits_0.
    destruct (Z.eqb_spec 15 n) as [<-|Hne]; [rewrite E; reflexivity|apply andb_false_r].
Qed.

Lemma crcBit_reference r : 0 <= r < 2 ^ 16 -> crcBit r = referenceStep r.
Proof.
  intros Hr. unfold crcBit, referenceStep, band, bxor, shl.
  change (1 mod 32) with 1. rewrite !Z.shiftl_mul_pow2 by lia. change (2 ^ 1) with 2.
  rewrite !(toInt32_small r) by lia.
  rewrite !(toInt32_small (r * 2)) by lia.
  rewrite !(toInt32_small 0x8000), !(toInt32_small 0x1021), !(toInt32_small 0xFFFF) by lia.
  rewrite land_bit15.
  assert (Hx : 0 <= Z.lxor (r * 2) 0x1021 < 2 ^ 17) by (apply lxor_bound; lia).
  change 0xFFFF with (Z.ones 16).
  destruct (Z.testbit r 15); simpl negb; cbv iota.
  - change (negb (32768 =? 0)) with true. cbv iota.
    rewrite toInt32_small by lia. apply Z.land_ones. lia.
  - change (negb (0 =? 0)) with false. cbv iota.
    rewrite toInt32_small by lia. apply Z.land_ones. lia.
Qed.

Lemma referenceStep_range r : 0 <= referenceStep r < 2 ^ 16.
Proof. unfold referenceStep. apply Z.mod_pos_bound. lia. Qed.

Lemma crcBit_iter k r :
  0 <= r < 2 ^ 16 ->
  Nat.iter k crcBit r = Nat.iter k referenceStep r
  /\ 0 <= Nat.iter k referenceStep r < 2 ^ 16.
Proof.
  intros Hr. induction k as [|k [IHeq IHrange]].
  - split; [reflexivity|exact Hr].
  - rewrite !Nat.iter_succ, IHeq. split; [apply crcBit_reference; exact IHrange|apply referenceStep_range].
Qed.

Lemma charCode_range c : 0 <= charCode c < 256.
Proof.
  unfold charCode. pose proof (N_ascii_bounded c). lia.
Qed.

Lemma byte_charCode c : Z.of_N (Byte.to_N (byte_of_ascii c)) = charCode c.
Proof.
  unfold charCode. f_equal. apply Byte.to_of_N. symmetry. apply byte_of_ascii_via_N.
Qed.

Lemma crcChar_reference r c :
  0 <= r < 2 ^ 16 ->
  crcChar r c = referenceByte r (byte_of_ascii c)
  /\ 0 <= referenceByte r (byte_of_ascii c) < 2 ^ 16.
Proof.
  intros Hr. unfold crcChar, referenceByte. rewrite byte_charCode.
  pose proof (charCode_range c) as Hc.
  unfold bxor, shl. change (8 mod 32) with 8.
  rewrite (toInt32_small (charCode c)) by lia.
  rewrite Z.shiftl_mul_pow2 by lia.
  rewrite !(toInt32_small (charCode c * 2 ^ 8)) by lia.
  rewrite (toInt32_small r) by lia.
  assert (Hx : 0 <= Z.lxor r (charCode c * 2 ^ 8) < 2 ^ 16) by (apply lxor_bound; lia).
  exact (crcBit_iter 8 _ Hx).
Qed.

Lemma crc_fold_reference (l : list ascii) r :
  0 <= r < 2 ^ 16 ->
  fold_left crcChar l r = fold_left referenceByte (map byte_of_ascii l) r
  /\ 0 <= fold_left crcChar l r < 2 ^ 16.
Proof.
  apply (fold_left_agree crcChar referenceByte byte_of_ascii
           (fun a => 0 <= a < 2 ^ 16)).
  intros a c Ha. destruct (crcChar_reference a c Ha) as [Heq Hrange].
  split; [exact Heq|exact Hrange].
Qed.

(** The checksum is a 16-bit number. *)
Lemma calculateCRC_range data : 0 <= calculateCRC data < 2 ^ 16.
Proof.
  unfold calculateCRC.
  exact (proj2 (crc_fold_reference (list_ascii_of_string data) 0xFFFF ltac:(lia))).
Qed.

End CrcReference.

(* ===================================================================== *)
(** ** The frame codec: encoding, then decoding *)
(* ===================================================================== *)

Section CodecFacts.

Import JS Crc Codec.
Local Open Scope Z_scope.

(** The text after the comma of a frame. *)
Lemma frameLine_shape message :
  exists h : string,
    frameLine message = message +:+ String comma h
    /\ isEmpty h = false
    /\ allChars isUpperHexDigit h = true
    /\ parseInt16 h = Some (calculateCRC message).
Proof.
  destruct (checksumText_facts (calculateCRC message)) as (Hne & Hall & Hparse);
    [apply calculateCRC_range|].
  exists (toUpperCase (toString16 (calculateCRC message))).
  split; [reflexivity|]. split; [exact Hne|]. split; [exact Hall|exact Hparse].
Qed.

Lemma isEmpty_app_cons (m : string) c (h : string) :
  isEmpty (m +:+ String c h) = false.
Proof. destruct m; reflexivity. Qed.

(** A frame as the senders build it passes the tests of the receiver. *)
Lemma classify_frameLine message : classify (frameLine message) = Valid message.
Proof.
  destruct (frameLine_shape message) as (h & -> & Hne & Hall & Hparse).
  unfold classify. rewrite isEmpty_app_cons.
  rewrite lastIndexOf_app by (apply upperHex_excludes; [reflexivity|exact Hall]).
  destruct (Z.eqb_spec (Z.of_nat (String.length message)) (-1)); [lia|].
  rewrite substring_prefix, substringFrom_suffix, Hparse.
  rewrite bool_decide_eq_true_2 by reflexivity. reflexivity.
Qed.

Lemma frameLine_inj m1 m2 : frameLine m1 = frameLine m2 -> m1 = m2.
Proof.
  intros H. assert (Hv : Valid m1 = Valid m2).
  { rewrite <- !classify_frameLine. rewrite H. reflexivity. }
  congruence.
Qed.

Lemma trimStart_clean (s : string) :
  startsWithWhiteSpace s = false -> trimStart s = s.
Proof. destruct s as [|c s]; [reflexivity|]. simpl. intros ->. reflexivity. Qed.

Lemma trimEnd_digits (h : string) :
  allChars isUpperHexDigit h = true -> trimEnd h = h.
Proof.
  induction h as [|c h IH]; [reflexivity|]. simpl.
  intros [Hc Hh]%andb_prop.
  destruct (upperHexDigit_plain c Hc) as (-> & _). rewrite (IH Hh). reflexivity.
Qed.

Lemma trimEnd_app_digits (y h : string) :
  isEmpty h = false -> allChars isUpperHexDigit h = true ->
  trimEnd (y +:+ h) = y +:+ h.
Proof.
  intros Hne Hall. induction y as [|a y IH].
  - rewrite sapp_nil_l. apply trimEnd_digits. exact Hall.
  - rewrite sapp_cons. simpl. rewrite IH.
    replace (isEmpty (y +:+ h)) with false by (destruct y, h; try reflexivity; discriminate).
    rewrite andb_false_r. reflexivity.
Qed.

Lemma startsWithWhiteSpace_app (m : string) c (h : string) :
  startsWithWhiteSpace m = false -> isWhiteSpace c = false ->
  startsWithWhiteSpace (m +:+ String c h) = false.
Proof. destruct m; simpl; intros H1 H2; [exact H2|exact H1]. Qed.

(** [trim] leaves a frame alone when its message does not start with white
    space. *)
Lemma trim_frameLine message :
  startsWithWhiteSpace message = false ->
  trim (frameLine message) = frameLine message.
Proof.
  intros Hstart. destruct (frameLine_shape message) as (h & -> & Hne & Hall & _).
  unfold trim. rewrite trimStart_clean
    by (apply startsWithWhiteSpace_app; [exact Hstart|reflexivity]).
  replace (message +:+ String comma h)
    with ((message +:+ String comma EmptyString) +:+ h)
    by (rewrite sapp_assoc; reflexivity).
  apply trimEnd_app_digits; assumption.
Qed.

Lemma includes_frameLine c message :
  isUpperHexDigit c = false -> Ascii.eqb comma c = false ->
  includes c (frameLine message) = includes c message.
Proof.
  intros Hc Hcomma. destruct (frameLine_shape message) as (h & -> & _ & Hall & _).
  rewrite includes_app. cbn [includes]. rewrite Hcomma.
  rewrite (upperHex_excludes c h Hc Hall). rewrite !orb_false_r. reflexivity.
Qed.

(** One terminated line is one complete line and an empty rest. *)
Lemma split_terminated (line : string) :
  includes newline line = false ->
  split newline (line +:+ String newline EmptyString) = [line; EmptyString].
Proof.
  induction line as [|a line IH]; [reflexivity|].
  simpl includes. intros [Ha Hl]%orb_false_elim.
  rewrite sapp_cons. simpl split. rewrite Ha, (IH Hl). reflexivity.
Qed.

End CodecFacts.

(* ===================================================================== *)
(** ** The engine: what each function does to the state *)
(* ===================================================================== *)

Import Codec Engine.

(** Reads the fields of a state built by assignments and effects. *)
Ltac fields :=
  cbn [deviceAddresses deviceTemperatures connectedDevices confirmationRetries
       errorCounters discoveryAttempts currentDeviceIndex isSampling
       serialBuffer written logged timers
       setRegistry setTemperatures setConnected setErrorCounters
       setDiscoveryAttempts setCurrentDeviceIndex setSampling setSerialBuffer
       setTimers write log setTimeout] in *.

Section SplitFacts.

Lemma split_plain (v : string) :
  JS.includes JS.comma v = false -> JS.split JS.comma v = [v].
Proof.
  induction v as [|c v IH]; [reflexivity|]. cbn [JS.includes JS.split].
  intros [Hc Hv]%orb_false_elim. rewrite Hc, (IH Hv). reflexivity.
Qed.

Lemma split_first (a rest : string) :
  JS.includes JS.comma a = false ->
  JS.split JS.comma (a +:+ String JS.comma rest) = a :: JS.split JS.comma rest.
Proof.
  induction a as [|c a IH].
  - intros _. rewrite sapp_nil_l. cbn [JS.split]. rewrite Ascii.eqb_refl. reflexivity.
  - cbn [JS.includes]. intros [Hc Ha]%orb_false_elim.
    rewrite sapp_cons. cbn [JS.split]. rewrite Hc, (IH Ha). reflexivity.
Qed.


Lemma addressField_plain (message : string) :
  JS.includes JS.comma message = false -> addressField message = message.
Proof. intros H. unfold addressField. rewrite (split_plain _ H). reflexivity. Qed.

End SplitFacts.

Section HandlerFacts.

Implicit Types (s : State) (data message address : string).

Lemma isRegistered_true s address :
  isRegistered s address = true <-> address ∈ deviceAddresses s.
Proof. unfold isRegistered. apply bool_decide_eq_true. Qed.

Lemma isRegistered_false s address :
  isRegistered s address = false <-> address ∉ deviceAddresses s.
Proof. unfold isRegistered. apply bool_decide_eq_false. Qed.

(** A line is corrupted when it fails the framing or the integrity test. *)
Lemma handleSerialData_corrupted data s :
  corrupted data ->
  exists reason,
    handleSerialData data s
    = handleCorruptedData (log reason (log ("Received: " +:+ data) s)).
Proof.
  unfold corrupted, handleSerialData. intros [H|H]; rewrite H; eauto.
Qed.

Lemma handleSerialData_valid data message s :
  classify data = Valid message ->
  handleSerialData data s = handleMessage message (log ("Received: " +:+ data) s).
Proof. unfold handleSerialData. intros ->. reflexivity. Qed.

(** The fault handler when no device is at the cursor. *)
Lemma handleCorruptedData_unattributed s :
  deviceAt s = None \/ deviceAt s = Some EmptyString ->
  handleCorruptedData s = s.
Proof. unfold handleCorruptedData. intros [->| ->]; reflexivity. Qed.

Lemma errorCountOf_updated s address n :
  errorCountOf (setErrorCounters (<[address := n]> (errorCounters s)) s) address = n.
Proof. unfold errorCountOf. fields. rewrite lookup_insert_eq. reflexivity. Qed.

(** The fault handler when [address] is at the cursor. *)
Lemma handleCorruptedData_attributed s address :
  deviceAt s = Some address -> JS.isEmpty address = false ->
  let s' := handleCorruptedData s in
  errorCounters s' = <[address := errorCountOf s address + 1]> (errorCounters s)
  /\ currentDeviceIndex s' =
       (if maxErrorCount <? errorCountOf s address + 1 then nextIndex s
        else currentDeviceIndex s)
  /\ deviceAddresses s' = deviceAddresses s
  /\ deviceTemperatures s' = deviceTemperatures s
  /\ connectedDevices s' = connectedDevices s
  /\ isSampling s' = isSampling s
  /\ discoveryAttempts s' = discoveryAttempts s
  /\ written s' = written s
  /\ timers s' = timers s ++ [(waitTime, RequestTemperature)].
Proof.
  intros Hat Hne. unfold handleCorruptedData. rewrite Hat, Hne.
  rewrite errorCountOf_updated.
  destruct (maxErrorCount <? errorCountOf s address + 1); fields;
    repeat split; reflexivity.
Qed.

Lemma deviceAt_log line s : deviceAt (log line s) = deviceAt s.
Proof. reflexivity. Qed.

Lemma errorCountOf_log line s address :
  errorCountOf (log line s) address = errorCountOf s address.
Proof. reflexivity. Qed.

(** A reading of a registered device. *)
Lemma handleMessage_reading message s :
  JS.includes JS.comma message = true ->
  isRegistered s (addressField message) = true ->
  let s' := handleMessage message s in
  deviceTemperatures s'
    = <[addressField message := tempDataField message]> (deviceTemperatures s)
  /\ errorCounters s' = <[addressField message := 0]> (errorCounters s)
  /\ currentDeviceIndex s' = nextIndex s
  /\ deviceAddresses s' = deviceAddresses s
  /\ connectedDevices s' = connectedDevices s
  /\ isSampling s' = isSampling s
  /\ discoveryAttempts s' = discoveryAttempts s
  /\ written s' = written s
  /\ timers s' = (if isSampling s then timers s ++ [(waitTime, RequestTemperature)]
                  else timers s).
Proof.
  intros Hc Hr. unfold handleMessage. rewrite Hc, Hr. cbn [andb].
  unfold recordReading. fields. destruct (isSampling s) eqn:E; fields;
    repeat split; solve [reflexivity | exact E].
Qed.

(** The test at line 140 when the first test fails. *)
Lemma handleMessage_announce message s :
  JS.includes JS.comma message && isRegistered s (addressField message) = false ->
  handleMessage message s =
    if negb (isConnected s message) && negb (isRegistered s message)
    then registerDevice message s else s.
Proof. unfold handleMessage. intros ->. reflexivity. Qed.

Lemma registerDevice_effect message s :
  let s' := registerDevice message s in
  deviceAddresses s' = deviceAddresses s ++ [message]
  /\ deviceTemperatures s' = <[message := "N/A"]> (deviceTemperatures s)
  /\ connectedDevices s' = <[message := false]> (connectedDevices s)
  /\ errorCounters s' = <[message := 0]> (errorCounters s)
  /\ currentDeviceIndex s' = currentDeviceIndex s
  /\ isSampling s' = isSampling s
  /\ discoveryAttempts s' = discoveryAttempts s
  /\ written s' = written s ++ [encode (message +:+ ",CONNECTED")]
  /\ timers s' = timers s ++ [(100, ConnectedResume message 0)].
Proof.
  unfold registerDevice, sendConnectedMessage, connectedLoop.
  change (0 <? connectedMessageRetries) with true. fields.
  repeat split; reflexivity.
Qed.

Lemma requestTemperature_idle s :
  deviceAddresses s = [] \/ isSampling s = false -> requestTemperature s = s.
Proof.
  unfold requestTemperature. intros [->| ->]; [reflexivity|].
  rewrite orb_true_r. reflexivity.
Qed.

Lemma requestTemperature_poll s :
  deviceAddresses s <> [] -> isSampling s = true ->
  requestTemperature s =
    log ("Sent: " +:+ (interpolate (deviceAt s) +:+ ",READTEMP") +:+ ",CRC")
      (write (encode (interpolate (deviceAt s) +:+ ",READTEMP")) s).
Proof.
  unfold requestTemperature. intros Hne ->.
  destruct (deviceAddresses s); [congruence|reflexivity].
Qed.

End HandlerFacts.

Section HandshakeFacts.

Implicit Types (s : State) (message address : string).


(** A round of [sendConnectedMessage] that sends. *)
Lemma connectedLoop_send address i s :
  i < connectedMessageRetries ->
  let s' := connectedLoop address i s in
  written s' = written s ++ [encode (address +:+ ",CONNECTED")]
  /\ timers s' = timers s ++ [(100, ConnectedResume address i)]
  /\ connectedDevices s' = connectedDevices s
  /\ deviceAddresses s' = deviceAddresses s
  /\ errorCounters s' = errorCounters s
  /\ currentDeviceIndex s' = currentDeviceIndex s
  /\ isSampling s' = isSampling s
  /\ discoveryAttempts s' = discoveryAttempts s.
Proof.
  intros Hi. unfold connectedLoop.
  destruct (Nat.ltb_spec i connectedMessageRetries); [|lia].
  fields. repeat split; reflexivity.
Qed.

(** The end of [sendConnectedMessage]. *)
Lemma connectedLoop_done address i s :
  connectedMessageRetries <= i ->
  connectedLoop address i s
  = setConnected (<[address := true]> (connectedDevices s)) s.
Proof.
  intros Hi. unfold connectedLoop.
  destruct (Nat.ltb_spec i connectedMessageRetries); [lia|reflexivity].
Qed.

End HandshakeFacts.

Section PollingFacts.

Implicit Types (s : State) (value address : string).


(** The poll that goes out when the timer of [requestTemperature] expires. *)
Lemma requestTemperature_effect s :
  deviceAddresses s <> [] -> isSampling s = true ->
  let s' := requestTemperature s in
  written s' = written s ++ [encode (interpolate (deviceAt s) +:+ ",READTEMP")]
  /\ timers s' = timers s
  /\ deviceAddresses s' = deviceAddresses s
  /\ currentDeviceIndex s' = currentDeviceIndex s
  /\ isSampling s' = true
  /\ connectedDevices s' = connectedDevices s
  /\ errorCounters s' = errorCounters s
  /\ discoveryAttempts s' = discoveryAttempts s.
Proof.
  intros Hne Hs s'. unfold s'. rewrite (requestTemperature_poll s Hne Hs). fields.
  repeat split; solve [reflexivity | exact Hs].
Qed.



End PollingFacts.


Section FaultFacts.

Implicit Types (s : State) (data message address : string).



(** A corrupted line attributed to the device at the cursor. *)
Lemma corrupted_attributed data s address :
  corrupted data -> deviceAt s = Some address -> JS.isEmpty address = false ->
  let s' := handleSerialData data s in
  errorCounters s' = <[address := errorCountOf s address + 1]> (errorCounters s)
  /\ currentDeviceIndex s' =
       (if maxErrorCount <? errorCountOf s address + 1 then nextIndex s
        else currentDeviceIndex s)
  /\ deviceAddresses s' = deviceAddresses s
  /\ isSampling s' = isSampling s
  /\ written s' = written s
  /\ timers s' = timers s ++ [(waitTime, RequestTemperature)].
Proof.
  intros Hbad Hat Hne s'. unfold s'.
  destruct (handleSerialData_corrupted data s Hbad) as [reason ->].
  destruct (handleCorruptedData_attributed
              (log reason (log ("Received: " +:+ data) s)) address Hat Hne)
    as (H1 & H2 & H3 & _ & _ & H6 & _ & H8 & H9).
  repeat split; assumption.
Qed.

(** How a line can change the error counters. *)
Lemma errorCounters_change data s :
  let s' := handleSerialData data s in
  errorCounters s' = errorCounters s
  \/ (corrupted data
      /\ exists a, deviceAt s = Some a /\ JS.isEmpty a = false
           /\ errorCounters s' = <[a := errorCountOf s a + 1]> (errorCounters s))
  \/ (exists message, classify data = Valid message
        /\ JS.includes JS.comma message = true
        /\ (addressField message ∈ deviceAddresses s)
        /\ errorCounters s' = <[addressField message := 0]> (errorCounters s))
  \/ (exists message, classify data = Valid message
        /\ (message ∉ deviceAddresses s)
        /\ errorCounters s' = <[message := 0]> (errorCounters s)).
Proof.
  intros s'. unfold s'.
  destruct (classify data) as [| | |message] eqn:Hclass.
  - left. unfold handleSerialData. rewrite Hclass. reflexivity.
  - assert (Hbad : corrupted data) by (left; exact Hclass).
    destruct (deviceAt s) as [a|] eqn:Hat; [destruct (JS.isEmpty a) eqn:Hne|].
    + left. destruct (handleSerialData_corrupted data s Hbad) as [reason ->].
      rewrite handleCorruptedData_unattributed; [reflexivity|].
      right. rewrite !deviceAt_log, Hat. destruct a; [reflexivity|discriminate].
    + right. left. split; [exact Hbad|]. exists a.
      destruct (corrupted_attributed data s a Hbad Hat Hne) as (H1 & _). eauto.
    + left. destruct (handleSerialData_corrupted data s Hbad) as [reason ->].
      rewrite handleCorruptedData_unattributed; [reflexivity|]. left. exact Hat.
  - assert (Hbad : corrupted data) by (right; exact Hclass).
    destruct (deviceAt s) as [a|] eqn:Hat; [destruct (JS.isEmpty a) eqn:Hne|].
    + left. destruct (handleSerialData_corrupted data s Hbad) as [reason ->].
      rewrite handleCorruptedData_unattributed; [reflexivity|].
      right. rewrite !deviceAt_log, Hat. destruct a; [reflexivity|discriminate].
    + right. left. split; [exact Hbad|]. exists a.
      destruct (corrupted_attributed data s a Hbad Hat Hne) as (H1 & _). eauto.
    + left. destruct (handleSerialData_corrupted data s Hbad) as [reason ->].
      rewrite handleCorruptedData_unattributed; [reflexivity|]. left. exact Hat.
  - rewrite (handleSerialData_valid _ _ _ Hclass).
    set (s0 := log ("Received: " +:+ data) s).
    destruct (JS.includes JS.comma message && isRegistered s0 (addressField message))
      eqn:Hread.
    + apply andb_prop in Hread as [Hinc Hreg].
      destruct (handleMessage_reading message s0 Hinc Hreg) as (_ & H2 & _).
      right. right. left. exists message. split; [reflexivity|]. split; [exact Hinc|].
      split; [apply isRegistered_true in Hreg; exact Hreg|exact H2].
    + rewrite (handleMessage_announce _ _ Hread).
      destruct (negb (isConnected s0 message) && negb (isRegistered s0 message))
        eqn:Hnew; [|left; reflexivity].
      apply andb_prop in Hnew as [_ Hreg]. apply negb_true_iff in Hreg.
      destruct (registerDevice_effect message s0) as (_ & _ & _ & H4 & _).
      right. right. right. exists message. split; [reflexivity|].
      split; [apply isRegistered_false in Hreg; exact Hreg|exact H4].
Qed.

(** The callbacks leave the error counters alone. *)
Lemma fire_errorCounters task s : errorCounters (fire task s) = errorCounters s.
Proof.
  destruct task as [| | |address i]; cbn [fire].
  - unfold startDiscovery. destruct (maxDiscoveryAttempts <=? _); reflexivity.
  - unfold discoveryCheck, startDiscovery, requestTemperature. fields.
    repeat (match goal with |- context [if ?b then _ else _] => destruct b end;
            fields); reflexivity.
  - unfold requestTemperature.
    destruct (_ || _); reflexivity.
  - unfold connectedLoop. destruct (_ <? _); reflexivity.
Qed.


End FaultFacts.


Section TrimFacts.

Lemma includes_trimStart c (s : string) :
  JS.includes c s = false -> JS.includes c (JS.trimStart s) = false.
Proof.
  induction s as [|a s IH]; [reflexivity|]. intros H. cbn [JS.trimStart].
  destruct (JS.isWhiteSpace a); [|exact H].
  cbn [JS.includes] in H. apply orb_false_elim in H as [_ H]. exact (IH H).
Qed.

Lemma includes_trimEnd c (s : string) :
  JS.includes c s = false -> JS.includes c (JS.trimEnd s) = false.
Proof.
  induction s as [|a s IH]; [reflexivity|]. cbn [JS.includes JS.trimEnd].
  intros [Ha Hs]%orb_false_elim.
  destruct (JS.isWhiteSpace a && JS.isEmpty (JS.trimEnd s)); [reflexivity|].
  cbn [JS.includes]. rewrite Ha, (IH Hs). reflexivity.
Qed.

Lemma includes_trim c (s : string) :
  JS.includes c s = false -> JS.includes c (JS.trim s) = false.
Proof. intros H. unfold JS.trim. apply includes_trimEnd, includes_trimStart, H. Qed.

(** A line without a comma that is not empty fails the framing test. *)
Lemma classify_no_comma (data : string) :
  JS.includes JS.comma data = false -> JS.isEmpty data = false ->
  classify data = FramingError.
Proof.
  intros Hc Hne. unfold classify. rewrite Hne.
  apply lastIndexOf_absent in Hc. rewrite Hc. reflexivity.
Qed.

Lemma setSerialBuffer_empty s (buffer : string) :
  serialBuffer s = EmptyString ->
  setSerialBuffer EmptyString (setSerialBuffer buffer s) = s.
Proof. destruct s. cbn. intros ->. reflexivity. Qed.

(** One terminated line in an empty buffer is handled as a line. *)
Lemma receive_line (line : string) s :
  serialBuffer s = EmptyString ->
  JS.includes JS.newline line = false ->
  receive (line +:+ String JS.newline EmptyString) s
  = handleSerialData (JS.trim line) s.
Proof.
  intros Hbuf Hnl. unfold receive, processSerialBuffer. fields.
  unfold completeLines, incompleteLine. rewrite Hbuf, sapp_nil_l.
  rewrite (split_terminated line Hnl). cbn [removelast List.last fold_left].
  rewrite setSerialBuffer_empty by exact Hbuf. reflexivity.
Qed.

End TrimFacts.

(** C9, as the code has it.  Every complete received line that contains no
    comma and is not empty once trimmed is classified as a framing failure,
    never as an integrity failure, is logged as such and is routed to the
    fault handler.  A line that is empty once trimmed is ignored. *)
Theorem comma_free_line_is_framing_failure (line : string) (s : State) :
  JS.includes JS.comma line = false ->
  (JS.isEmpty (JS.trim line) = false ->
   classify (JS.trim line) = FramingError
   /\ classify (JS.trim line) <> IntegrityError
   /\ handleSerialData (JS.trim line) s
      = handleCorruptedData
          (log "Invalid data format (no CRC)"
             (log ("Received: " +:+ JS.trim line) s))
   /\ (serialBuffer s = EmptyString ->
       JS.includes JS.newline line = false ->
       receive (line +:+ String JS.newline EmptyString) s
       = handleCorruptedData
           (log "Invalid data format (no CRC)"
              (log ("Received: " +:+ JS.trim line) s))))
  /\ (JS.isEmpty (JS.trim line) = true ->
      classify (JS.trim line) = Ignored
      /\ handleSerialData (JS.trim line) s = s).
Proof.
  intros Hc. split.
  - intros Hne.
    assert (Hclass : classify (JS.trim line) = FramingError)
      by (apply classify_no_comma; [apply includes_trim; exact Hc|exact Hne]).
    assert (Hhandle : handleSerialData (JS.trim line) s
                      = handleCorruptedData
                          (log "Invalid data format (no CRC)"
                             (log ("Received: " +:+ JS.trim line) s)))
      by (unfold handleSerialData; rewrite Hclass; reflexivity).
    split; [exact Hclass|]. split; [rewrite Hclass; discriminate|].
    split; [exact Hhandle|].
    intros Hbuf Hnl. rewrite (receive_line line s Hbuf Hnl). exact Hhandle.
  - intros Hempty.
    assert (Hclass : classify (JS.trim line) = Ignored)
      by (unfold classify; rewrite Hempty; reflexivity).
    split; [exact Hclass|]. unfold handleSerialData. rewrite Hclass. reflexivity.
Qed.

(** C9 as stated fails on an empty line: it contains no comma, and it is
    dropped without a verdict, a log line or a call of the fault handler. *)
Lemma empty_line_is_dropped :
  JS.includes JS.comma EmptyString = false
  /\ decode EmptyString (String JS.newline EmptyString) = ([Ignored], EmptyString)
  /\ classify (JS.trim EmptyString) <> FramingError
  /\ receive (String JS.newline EmptyString) connected = connected.
Proof.
  split; [reflexivity|]. split; [vm_compute; reflexivity|].
  split; [discriminate|vm_compute; reflexivity].
Qed.




(** C7, as the code has it.  A line changes the error count of a device
    only in three ways: a corrupted line changes the count of the device at
    the cursor; a valid reading sets to 0 the count of the registered
    device that it names, at the cursor or not; and a valid announcement
    sets to 0 the count of the device that it registers. *)
Theorem errorCount_change_cases (s : State) (data address : string) :
  errorCounters (handleSerialData data s) !! address <> errorCounters s !! address ->
  (corrupted data /\ deviceAt s = Some address)
  \/ (exists message,
        classify data = Valid message
        /\ errorCounters (handleSerialData data s) !! address = Some 0
        /\ ((JS.includes JS.comma message = true
             /\ addressField message = address
             /\ address ∈ deviceAddresses s)
            \/ (message = address /\ address ∉ deviceAddresses s))).
Proof.
  intros Hdiff.
  destruct (errorCounters_change data s)
    as [Hsame|[(Hbad & a & Ha & Hane & Hch)|[(m & Hm & Hinc & Hreg & Hch)|(m & Hm & Hnew & Hch)]]].
  - rewrite Hsame in Hdiff. contradiction.
  - left. split; [exact Hbad|]. rewrite Hch in Hdiff.
    destruct (decide (a = address)) as [<-|Hne]; [exact Ha|].
    rewrite lookup_insert_ne in Hdiff by exact Hne. contradiction.
  - right. exists m. split; [exact Hm|]. rewrite Hch in Hdiff. rewrite Hch.
    destruct (decide (addressField m = address)) as [Heq|Hne].
    + rewrite <- Heq, lookup_insert_eq. split; [reflexivity|]. left.
      repeat split; assumption.
    + rewrite lookup_insert_ne in Hdiff by exact Hne. contradiction.
  - right. exists m. split; [exact Hm|]. rewrite Hch in Hdiff. rewrite Hch.
    destruct (decide (m = address)) as [<-|Hne].
    + rewrite lookup_insert_eq. split; [reflexivity|]. right. split; [reflexivity|exact Hnew].
    + rewrite lookup_insert_ne in Hdiff by exact Hne. contradiction.
Qed.

Lemma errorCount_change_cases_witness :
  (corrupted "garbage" /\ deviceAt oneDeviceFound = Some "D1")
  \/ (exists message,
        classify "garbage" = Valid message
        /\ errorCounters (handleSerialData "garbage" oneDeviceFound) !! "D1" = Some 0
        /\ ((JS.includes JS.comma message = true
             /\ addressField message = "D1"
             /\ "D1" ∈ deviceAddresses oneDeviceFound)
            \/ (message = "D1" /\ "D1" ∉ deviceAddresses oneDeviceFound))).
Proof.
  apply (errorCount_change_cases oneDeviceFound "garbage" "D1").
  vm_compute. discriminate.
Defined.

(** C7 as stated fails: in a state that the engine reaches, with device A
    at the cursor and an error count of 1 for device B, a valid reading
    from B resets the count of B. *)
Lemma errorCount_reset_off_cursor :
  deviceAddresses staleCount = ["A"; "B"]
  /\ deviceAt staleCount = Some "A"
  /\ errorCounters staleCount !! "B" = Some 1
  /\ classify (frameLine "B,5") = Valid "B,5"
  /\ errorCounters (handleSerialData (frameLine "B,5") staleCount) !! "B" = Some 0.
Proof.
  assert (H : bool_decide
                (deviceAddresses staleCount = ["A"; "B"]
                 /\ deviceAt staleCount = Some "A"
                 /\ errorCounters staleCount !! "B" = Some 1
                 /\ errorCounters (handleSerialData (frameLine "B,5") staleCount) !! "B"
                    = Some 0) = true) by (vm_compute; reflexivity).
  apply bool_decide_eq_true in H. destruct H as (H1 & H2 & H3 & H4).
  split; [exact H1|]. split; [exact H2|]. split; [exact H3|].
  split; [apply classify_frameLine|exact H4].
Qed.

Section EligibilityFacts.

Lemma requestTemperature_setConnected cd s :
  requestTemperature (setConnected cd s) = setConnected cd (requestTemperature s).
Proof.
  unfold requestTemperature. fields. destruct (_ || _); reflexivity.
Qed.

Lemma startDiscovery_setConnected cd s :
  startDiscovery (setConnected cd s) = setConnected cd (startDiscovery s).
Proof.
  unfold startDiscovery. fields. destruct (_ <=? _); reflexivity.
Qed.

Lemma discoveryCheck_setConnected cd s :
  discoveryCheck (setConnected cd s) = setConnected cd (discoveryCheck s).
Proof.
  unfold discoveryCheck. fields. destruct (_ <? 4).
  - apply (startDiscovery_setConnected cd (log _ s)).
  - apply (requestTemperature_setConnected cd (setSampling true (log _ s))).
Qed.

(** The check of the discovery loop when four addresses are registered. *)
Lemma discoveryCheck_complete s :
  4 <= length (deviceAddresses s) ->
  let s' := discoveryCheck s in
  isSampling s' = true
  /\ written s' = written s ++ [encode (interpolate (deviceAt s) +:+ ",READTEMP")]
  /\ timers s' = timers s
  /\ discoveryAttempts s' = discoveryAttempts s
  /\ deviceAddresses s' = deviceAddresses s.
Proof.
  intros Hfour s'. unfold s', discoveryCheck.
  destruct (Nat.ltb_spec (length (deviceAddresses s)) 4); [lia|].
  destruct (requestTemperature_effect
              (setSampling true (log "All devices connected. Discovery complete." s)))
    as (H1 & H2 & H3 & _ & H5 & _ & _ & H8).
  - fields. intros E. rewrite E in Hfour. cbn in Hfour. lia.
  - reflexivity.
  - fields. repeat split; assumption.
Qed.

End EligibilityFacts.

(** Four devices answer the first broadcast before the check of the loop
    runs: sampling starts and the first poll goes out while no handshake is
    complete. *)
Lemma unconfirmedStart_facts :
  match unconfirmedStart with
  | Some s =>
      bool_decide
        (isSampling s = true
         /\ deviceAddresses s = ["D1"; "D2"; "D3"; "D4"]
         /\ Forall (fun a => connectedDevices s !! a = Some false) (deviceAddresses s)
         /\ last (written s) = Some (encode "D1,READTEMP"))
  | None => false
  end = true.
Proof. vm_compute. reflexivity. Qed.

(** C10.  Polling depends on registration only, not on the confirmed flag.
    The check of the discovery loop turns sampling on and polls the device
    at the cursor as soon as it finds four registered addresses; neither
    the check nor [requestTemperature] reads the confirmed flags, so the
    state they produce is the same whatever those flags are; and the engine
    does reach a state where sampling has started and [READTEMP] has gone
    to a device while no device has completed its handshake. *)
Theorem polling_ignores_confirmation :
  (forall s,
     4 <= length (deviceAddresses s) ->
     isSampling (discoveryCheck s) = true
     /\ written (discoveryCheck s)
        = written s ++ [encode (interpolate (deviceAt s) +:+ ",READTEMP")])
  /\ (forall s address,
        isSampling s = true -> deviceAt s = Some address ->
        written (requestTemperature s)
        = written s ++ [encode (address +:+ ",READTEMP")])
  /\ (forall s flags,
        discoveryCheck (setConnected flags s) = setConnected flags (discoveryCheck s)
        /\ requestTemperature (setConnected flags s)
           = setConnected flags (requestTemperature s))
  /\ (exists s,
        unconfirmedStart = Some s
        /\ isSampling s = true
        /\ deviceAddresses s = ["D1"; "D2"; "D3"; "D4"]
        /\ Forall (fun a => connectedDevices s !! a = Some false) (deviceAddresses s)
        /\ last (written s) = Some (encode "D1,READTEMP")).
Proof.
  split; [|split; [|split]].
  - intros s Hfour. destruct (discoveryCheck_complete s Hfour) as (H1 & H2 & _).
    split; [exact H1|exact H2].
  - intros s address Hs Hat.
    destruct (requestTemperature_effect s) as (H1 & _); [|exact Hs|].
    + intros E. unfold deviceAt in Hat. rewrite E in Hat. discriminate.
    + rewrite H1, Hat. reflexivity.
  - intros s flags. split;
      [apply discoveryCheck_setConnected|apply requestTemperature_setConnected].
  - pose proof unconfirmedStart_facts as H.
    destruct unconfirmedStart as [s|]; [|discriminate H].
    exists s. split; [reflexivity|]. apply bool_decide_eq_true in H. exact H.
Qed.

(* ===================================================================== *)
(** ** The discovery loop *)
(* ===================================================================== *)

Section DiscoveryFacts.

Implicit Types (s : State) (message address : string).

(** The message of a frame is the text before its last comma. *)
Lemma encode_inj m1 m2 : encode m1 = encode m2 -> m1 = m2.
Proof.
  assert (Hleft : forall m,
            JS.substring 0 (JS.lastIndexOf JS.comma (encode m)) (encode m) = m).
  { intros m. unfold encode.
    destruct (frameLine_shape m) as (h & -> & _ & Hall & _).
    rewrite sapp_assoc, sapp_cons.
    rewrite lastIndexOf_app.
    - apply substring_prefix.
    - rewrite includes_app, (upperHex_excludes JS.comma h) by (reflexivity || exact Hall).
      reflexivity. }
  intros H. rewrite <- (Hleft m1), <- (Hleft m2), H. reflexivity.
Qed.

Lemma discover_not_suffixed (a suffix : string) :
  encode (a +:+ String JS.comma suffix) <> encode "DISCOVER".
Proof.
  intros H%encode_inj.
  assert (Hinc : JS.includes JS.comma (a +:+ String JS.comma suffix) = true).
  { rewrite includes_app. cbn [JS.includes]. rewrite Ascii.eqb_refl, orb_true_r.
    reflexivity. }
  rewrite H in Hinc. discriminate Hinc.
Qed.

Lemma sentCount_written message s s' :
  written s' = written s -> sentCount message s' = sentCount message s.
Proof. unfold sentCount. intros ->. reflexivity. Qed.

Lemma sentCount_other message frame s s' :
  written s' = written s ++ [frame] -> frame <> encode message ->
  sentCount message s' = sentCount message s.
Proof.
  unfold sentCount. intros -> Hne. rewrite filter_app, length_app.
  rewrite filter_cons_False, filter_nil by exact Hne. cbn [length]. lia.
Qed.

Lemma sentCount_one message s s' :
  written s' = written s ++ [encode message] ->
  sentCount message s' = sentCount message s + 1.
Proof.
  unfold sentCount. intros ->. rewrite filter_app, length_app.
  rewrite filter_cons_True, filter_nil by reflexivity. reflexivity.
Qed.

Lemma discoveryPending_timers s s' :
  timers s' = timers s -> discoveryPending s' = discoveryPending s.
Proof. unfold discoveryPending. intros ->. reflexivity. Qed.

Lemma discoveryPending_added s s' delay task :
  timers s' = timers s ++ [(delay, task)] ->
  discoveryPending s'
  = discoveryPending s + (if isDiscoveryTask task then 1 else 0).
Proof.
  unfold discoveryPending. intros ->. rewrite filter_app, length_app. f_equal.
  destruct (isDiscoveryTask task) eqn:E.
  - rewrite filter_cons_True by exact E. reflexivity.
  - rewrite filter_cons_False by (cbn [snd]; rewrite E; discriminate). reflexivity.
Qed.


(** What leaves the discovery loop undisturbed. *)
Lemma quiet_refl s : quiet s s.
Proof. unfold quiet. repeat split; reflexivity. Qed.

Lemma quiet_trans s1 s2 s3 : quiet s1 s2 -> quiet s2 s3 -> quiet s1 s3.
Proof. unfold quiet. intros (A1 & A2 & A3 & A4 & A5) (B1 & B2 & B3 & B4 & B5).
  repeat split; try congruence. lia.
Qed.

Lemma quiet_intro s s' :
  discoveryAttempts s' = discoveryAttempts s ->
  isSampling s' = isSampling s ->
  (written s' = written s
   \/ exists frame, written s' = written s ++ [frame] /\ frame <> encode "DISCOVER") ->
  (timers s' = timers s
   \/ exists delay task, timers s' = timers s ++ [(delay, task)]
        /\ isDiscoveryTask task = false) ->
  (deviceAddresses s' = deviceAddresses s
   \/ exists a, deviceAddresses s' = deviceAddresses s ++ [a]) ->
  quiet s s'.
Proof.
  intros H1 H2 Hw Ht Ha. unfold quiet. split; [exact H1|]. split; [exact H2|].
  split; [|split].
  - destruct Hw as [Hw|(f & Hw & Hne)];
      [apply sentCount_written; exact Hw|eapply sentCount_other; eassumption].
  - destruct Ht as [Ht|(d & t & Ht & Hnd)]; [apply discoveryPending_timers; exact Ht|].
    rewrite (discoveryPending_added _ _ _ _ Ht), Hnd. lia.
  - destruct Ha as [->|(a & ->)]; [lia|rewrite length_app; lia].
Qed.

Lemma quiet_log line s : quiet s (log line s).
Proof. apply quiet_intro; auto. Qed.

Lemma quiet_requestTemperature s : quiet s (requestTemperature s).
Proof.
  destruct (isSampling s) eqn:Hs;
    [destruct (deviceAddresses s) as [|a l] eqn:Ha|].
  - rewrite requestTemperature_idle by (left; exact Ha). apply quiet_refl.
  - destruct (requestTemperature_effect s) as (H1 & H2 & H3 & _ & H5 & _ & _ & H8);
      [rewrite Ha; discriminate|exact Hs|].
    apply quiet_intro; [exact H8|congruence| |left; exact H2|left; exact H3].
    right. eexists. split; [exact H1|]. apply discover_not_suffixed.
  - rewrite requestTemperature_idle by (right; exact Hs). apply quiet_refl.
Qed.

Lemma quiet_connectedLoop address i s : quiet s (connectedLoop address i s).
Proof.
  destruct (Nat.lt_ge_cases i connectedMessageRetries) as [Hi|Hi].
  - destruct (connectedLoop_send address i s Hi) as (H1 & H2 & _ & H4 & _ & _ & H7 & H8).
    apply quiet_intro; [exact H8|exact H7| | |left; exact H4].
    + right. eexists. split; [exact H1|]. apply discover_not_suffixed.
    + right. do 2 eexists. split; [exact H2|reflexivity].
  - rewrite (connectedLoop_done address i s Hi). apply quiet_intro; auto.
Qed.

Lemma quiet_handleCorruptedData s : quiet s (handleCorruptedData s).
Proof.
  destruct (deviceAt s) as [a|] eqn:Hat; [destruct (JS.isEmpty a) eqn:Hne|].
  - rewrite handleCorruptedData_unattributed; [apply quiet_refl|].
    right. rewrite Hat. destruct a; [reflexivity|discriminate].
  - destruct (handleCorruptedData_attributed s a Hat Hne)
      as (_ & _ & H3 & _ & _ & H6 & H7 & H8 & H9).
    apply quiet_intro; [exact H7|exact H6|left; exact H8| |left; exact H3].
    right. do 2 eexists. split; [exact H9|reflexivity].
  - rewrite handleCorruptedData_unattributed; [apply quiet_refl|left; exact Hat].
Qed.

Lemma quiet_handleMessage message s : quiet s (handleMessage message s).
Proof.
  destruct (JS.includes JS.comma message && isRegistered s (addressField message))
    eqn:Hread.
  - apply andb_prop in Hread as [Hinc Hreg].
    destruct (handleMessage_reading message s Hinc Hreg)
      as (_ & _ & _ & H4 & _ & H6 & H7 & H8 & H9).
    apply quiet_intro; [exact H7|exact H6|left; exact H8| |left; exact H4].
    destruct (isSampling s); [|left; exact H9].
    right. do 2 eexists. split; [exact H9|reflexivity].
  - rewrite (handleMessage_announce _ _ Hread).
    destruct (negb (isConnected s message) && negb (isRegistered s message));
      [|apply quiet_refl].
    destruct (registerDevice_effect message s)
      as (H1 & _ & _ & _ & _ & H6 & H7 & H8 & H9).
    apply quiet_intro; [exact H7|exact H6| | |right; eexists; exact H1].
    + right. eexists. split; [exact H8|]. apply discover_not_suffixed.
    + right. do 2 eexists. split; [exact H9|reflexivity].
Qed.

Lemma quiet_handleSerialData data s : quiet s (handleSerialData data s).
Proof.
  unfold handleSerialData. destruct (classify data) as [| | |message].
  - apply quiet_refl.
  - eapply quiet_trans; [|apply quiet_handleCorruptedData].
    eapply quiet_trans; apply quiet_log.
  - eapply quiet_trans; [|apply quiet_handleCorruptedData].
    eapply quiet_trans; apply quiet_log.
  - eapply quiet_trans; [apply quiet_log|apply quiet_handleMessage].
Qed.

Lemma quiet_feed (lines : list string) s :
  quiet s (fold_left (fun s line => handleSerialData (JS.trim line) s) lines s).
Proof.
  revert s. induction lines as [|line lines IH]; intros s; [apply quiet_refl|].
  cbn [fold_left]. eapply quiet_trans; [apply quiet_handleSerialData|apply IH].
Qed.

Lemma quiet_receive text s : quiet s (receive text s).
Proof.
  unfold receive, processSerialBuffer.
  eapply quiet_trans; [|apply quiet_feed]. apply quiet_intro; auto.
Qed.

(** [startDiscovery] when the attempts are exhausted, and when not. *)
Lemma startDiscovery_exhausted s :
  maxDiscoveryAttempts <= discoveryAttempts s ->
  startDiscovery s = log "Max discovery attempts reached. Stopping discovery." s.
Proof.
  intros H. unfold startDiscovery.
  destruct (Nat.leb_spec maxDiscoveryAttempts (discoveryAttempts s)); [reflexivity|lia].
Qed.

Lemma startDiscovery_round s :
  discoveryAttempts s < maxDiscoveryAttempts ->
  let s' := startDiscovery s in
  discoveryAttempts s' = discoveryAttempts s + 1
  /\ written s' = written s ++ [encode "DISCOVER"]
  /\ timers s' = timers s ++ [(waitTime, DiscoveryCheck)]
  /\ isSampling s' = isSampling s
  /\ deviceAddresses s' = deviceAddresses s.
Proof.
  intros H. unfold startDiscovery.
  destruct (Nat.leb_spec maxDiscoveryAttempts (discoveryAttempts s)); [lia|].
  fields. repeat split; reflexivity.
Qed.

Lemma discoveryCheck_retry s :
  length (deviceAddresses s) < 4 ->
  discoveryCheck s
  = startDiscovery
      (log ("Retrying discovery (Attempt " +:+ pretty (discoveryAttempts s) +:+ ")...") s).
Proof.
  intros H. unfold discoveryCheck.
  destruct (Nat.ltb_spec (length (deviceAddresses s)) 4); [reflexivity|lia].
Qed.

End DiscoveryFacts.

Section DiscoveryLoop.

Implicit Types (s : State) (events : list Event).

(** A callback of the discovery loop runs: the three ways it can go. *)
Lemma discovery_turn task s :
  isDiscoveryTask task = true ->
  let s' := fire task s in
  deviceAddresses s' = deviceAddresses s
  /\ ((maxDiscoveryAttempts <= discoveryAttempts s
       /\ quiet s s' /\ timers s' = timers s)
      \/ (discoveryAttempts s < maxDiscoveryAttempts
          /\ discoveryAttempts s' = discoveryAttempts s + 1
          /\ sentCount "DISCOVER" s' = sentCount "DISCOVER" s + 1
          /\ timers s' = timers s ++ [(waitTime, DiscoveryCheck)]
          /\ isSampling s' = isSampling s)
      \/ (4 <= length (deviceAddresses s)
          /\ discoveryAttempts s' = discoveryAttempts s
          /\ sentCount "DISCOVER" s' = sentCount "DISCOVER" s
          /\ timers s' = timers s
          /\ isSampling s' = true)).
Proof.
  assert (Hstart : forall s0,
    deviceAddresses (startDiscovery s0) = deviceAddresses s0
    /\ ((maxDiscoveryAttempts <= discoveryAttempts s0
         /\ quiet s0 (startDiscovery s0) /\ timers (startDiscovery s0) = timers s0)
        \/ (discoveryAttempts s0 < maxDiscoveryAttempts
            /\ discoveryAttempts (startDiscovery s0) = discoveryAttempts s0 + 1
            /\ sentCount "DISCOVER" (startDiscovery s0) = sentCount "DISCOVER" s0 + 1
            /\ timers (startDiscovery s0) = timers s0 ++ [(waitTime, DiscoveryCheck)]
            /\ isSampling (startDiscovery s0) = isSampling s0))).
  { intros s0. destruct (Nat.le_gt_cases maxDiscoveryAttempts (discoveryAttempts s0)) as [H|H].
    - rewrite (startDiscovery_exhausted s0 H). split; [reflexivity|]. left.
      split; [exact H|]. split; [apply quiet_log|reflexivity].
    - destruct (startDiscovery_round s0 H) as (H1 & H2 & H3 & H4 & H5).
      split; [exact H5|]. right. split; [exact H|]. split; [exact H1|].
      split; [apply sentCount_one; exact H2|]. split; [exact H3|exact H4]. }
  intros Htask s'. unfold s'. destruct task; try discriminate Htask; cbn [fire].
  - destruct (Hstart s) as (Ha & [H|H]); (split; [exact Ha|]); [left|right; left]; exact H.
  - destruct (Nat.lt_ge_cases (length (deviceAddresses s)) 4) as [Hfew|Hfour].
    + rewrite (discoveryCheck_retry s Hfew).
      destruct (Hstart (log ("Retrying discovery (Attempt "
                             +:+ pretty (discoveryAttempts s) +:+ ")...") s))
        as (Ha & [(H1 & H2 & H3)|H]); (split; [exact Ha|]).
      * left. split; [exact H1|]. split; [|exact H3].
        eapply quiet_trans; [apply quiet_log|exact H2].
      * right. left. exact H.
    + destruct (discoveryCheck_complete s Hfour) as (H1 & H2 & H3 & H4 & H5).
      split; [exact H5|]. right. right. split; [exact Hfour|]. split; [exact H4|].
      split; [|split; [exact H3|exact H1]].
      eapply sentCount_other; [exact H2|]. apply discover_not_suffixed.
Qed.

(** A callback outside the discovery loop leaves the loop undisturbed. *)
Lemma other_turn task s :
  isDiscoveryTask task = false -> quiet s (fire task s).
Proof.
  destruct task; try discriminate; intros _; cbn [fire].
  - apply quiet_requestTemperature.
  - apply quiet_connectedLoop.
Qed.







End DiscoveryLoop.

Section HandshakeInvariant.

Implicit Types (s : State) (message address : string).


Lemma handshakesRegistered_log line s :
  handshakesRegistered s -> handshakesRegistered (log line s).
Proof. intros H. exact H. Qed.







End HandshakeInvariant.






Lemma polling_ignores_confirmation_witness :
  isSampling (discoveryCheck polling) = true
  /\ written (discoveryCheck polling) = [encode "A,READTEMP"].
Proof.
  destruct polling_ignores_confirmation as (Hcheck & _).
  apply (Hcheck polling). vm_compute. lia.
Defined.




Lemma comma_free_line_is_framing_failure_witness :
  classify (JS.trim " garbage ") = FramingError.
Proof.
  apply (comma_free_line_is_framing_failure " garbage " connected);
    vm_compute; reflexivity.
Defined.

(** C1, as the code has it.  For every ASCII message that contains no line
    terminator and does not start with white space, decoding the frame that
    [encode] builds for it (the message, a comma, the 16-bit CRC of the
    message in upper-case hexadecimal, the line terminator) yields exactly
    one line, whose checksum is accepted and whose message is the message
    encoded; nothing stays in the buffer. *)
Theorem decode_encode_roundtrip (m : string) :
  isAscii m ->
  JS.includes JS.newline m = false ->
  JS.startsWithWhiteSpace m = false ->
  Codec.decode EmptyString (Codec.encode m) = ([Codec.Valid m], EmptyString).
Proof.
  intros _ Hnl Hstart. unfold decode, completeLines, incompleteLine, encode.
  rewrite sapp_nil_l.
  rewrite split_terminated
    by (rewrite includes_frameLine; [exact Hnl|reflexivity|reflexivity]).
  cbn [removelast List.last map].
  rewrite trim_frameLine by exact Hstart.
  rewrite classify_frameLine. reflexivity.
Qed.

Lemma decode_encode_roundtrip_witness :
  Codec.decode EmptyString (Codec.encode "D1,23.5")
  = ([Codec.Valid "D1,23.5"], EmptyString).
Proof.
  apply (decode_encode_roundtrip "D1,23.5").
  - unfold isAscii. repeat (constructor; [reflexivity|]). constructor.
  - reflexivity.
  - reflexivity.
Defined.

(** C1 as stated fails: the ASCII message [" a"] starts with a space, which
    [trim] removes from the received line, so that the checksum is computed
    over ["a"] and the frame is rejected. *)
Lemma decode_encode_leading_space :
  isAscii " a"
  /\ Codec.decode EmptyString (Codec.encode " a") = ([Codec.IntegrityError], EmptyString)
  /\ Codec.decode EmptyString (Codec.encode " a") <> ([Codec.Valid " a"], EmptyString).
Proof.
  split; [unfold isAscii; repeat (constructor; [reflexivity|]); constructor|].
  assert (H : Codec.decode EmptyString (Codec.encode " a")
              = ([Codec.IntegrityError], EmptyString)) by (vm_compute; reflexivity).
  split; [exact H|]. rewrite H. discriminate.
Qed.

(** C2.  For every ASCII string, [calculateCRC] returns the reference
    16-bit CRC of the string's bytes: polynomial 0x1021, initial register
    0xFFFF, most significant bit first, each byte XORed into the top byte
    of the register and followed by 8 steps that shift left one bit, XOR
    the polynomial when the top bit before the shift was set, and mask to
    16 bits. *)
Theorem calculateCRC_is_reference (data : string) :
  isAscii data ->
  Crc.calculateCRC data = Crc.referenceCRC (list_byte_of_string data).
Proof.
  intros _. unfold Crc.calculateCRC, Crc.referenceCRC, list_byte_of_string.
  exact (proj1 (crc_fold_reference (list_ascii_of_string data) 0xFFFF ltac:(lia))).
Qed.

Lemma calculateCRC_is_reference_witness :
  isAscii "DISCOVER"
  /\ Crc.calculateCRC "DISCOVER" = Crc.referenceCRC (list_byte_of_string "DISCOVER").
Proof.
  assert (H : isAscii "DISCOVER").
  { unfold isAscii. repeat (constructor; [reflexivity|]). constructor. }
  split; [exact H|apply (calculateCRC_is_reference "DISCOVER" H)].
Defined.

(* ===================================================================== *)
(** ** More on the codec: what the receiver accepts *)
(* ===================================================================== *)

Section ReceiverFacts.

(** A string with a comma, cut at its last comma. *)
Lemma lastIndexOf_cut c (s : string) (n : nat) :
  JS.lastIndexOf c s = Z.of_nat n ->
  exists m t : string,
    s = m +:+ String c t /\ String.length m = n /\ JS.includes c t = false.
Proof.
  revert n. induction s as [|a s IH]; intros n H.
  - cbn [JS.lastIndexOf] in H. lia.
  - cbn [JS.lastIndexOf] in H.
    destruct (Z.leb_spec 0 (JS.lastIndexOf c s)) as [Hpos|Hneg].
    + destruct n as [|n]; [lia|].
      destruct (IH n) as (m & t & -> & Hlen & Ht); [lia|].
      exists (String a m), t. rewrite sapp_cons. cbn [String.length].
      split; [reflexivity|]. split; [congruence|exact Ht].
    + destruct (Ascii.eqb_spec a c) as [->|Hne]; [|lia].
      destruct n as [|n]; [|lia]. exists EmptyString, s.
      split; [reflexivity|]. split; [reflexivity|].
      apply lastIndexOf_absent. pose proof (lastIndexOf_lower c s). lia.
Qed.

(** The digits are read up to the text that ends the number. *)
Lemma parseDigits_stop v (h t : string) :
  JS.allChars JS.isUpperHexDigit h = true ->
  JS.endsNumber t = true ->
  JS.parseDigits v true (h +:+ t) = Some (JS.hexNumber v h).
Proof.
  revert v. induction h as [|c h IH]; intros v Hall Hend.
  - rewrite sapp_nil_l. cbn [JS.hexNumber]. destruct t as [|c t]; [reflexivity|].
    cbn [JS.endsNumber] in Hend. cbn [JS.parseDigits].
    destruct (JS.hexValue c); [discriminate Hend|reflexivity].
  - rewrite sapp_cons. cbn [JS.allChars] in Hall. apply andb_prop in Hall as [Hc Hh].
    destruct (upperHexDigit_plain c Hc) as (_ & _ & _ & _ & _ & _ & _ & [d Hd]).
    cbn [JS.parseDigits JS.hexNumber]. rewrite Hd. apply IH; assumption.
Qed.

Lemma parseInt16_stop (h t : string) :
  JS.isEmpty h = false ->
  JS.allChars JS.isUpperHexDigit h = true ->
  JS.endsNumber t = true ->
  JS.parseInt16 (h +:+ t) = Some (JS.hexNumber 0 h).
Proof.
  destruct h as [|c h]; [discriminate|]. intros _ Hall Hend.
  pose proof Hall as [Hc Hh]%andb_prop.
  destruct (upperHexDigit_plain c Hc) as (Hws & Hminus & Hplus & _ & _ & _ & _ & [d Hd]).
  unfold JS.parseInt16. rewrite sapp_cons. cbn [JS.trimStart]. rewrite Hws.
  unfold JS.stripSign. rewrite Hminus, Hplus.
  assert (Hprefix : JS.stripHexPrefix (String c (h +:+ t)) = String c (h +:+ t)).
  { destruct h as [|c1 h].
    - rewrite sapp_nil_l. destruct t as [|c1 t]; [reflexivity|].
      cbn [JS.endsNumber] in Hend. cbn [JS.stripHexPrefix].
      destruct (JS.hexValue c1); [discriminate Hend|].
      apply negb_true_iff in Hend. rewrite Hend, andb_false_r. reflexivity.
    - rewrite sapp_cons. cbn [JS.allChars] in Hh. apply andb_prop in Hh as [Hc1 _].
      destruct (upperHexDigit_plain c1 Hc1) as (_ & _ & _ & Hx & HX & _).
      cbn [JS.stripHexPrefix]. rewrite Hx, HX, andb_false_r. reflexivity. }
  rewrite Hprefix. cbn [JS.parseDigits]. rewrite Hd.
  rewrite (parseDigits_stop _ h t Hh Hend). cbn [JS.hexNumber]. rewrite Hd. reflexivity.
Qed.

Lemma hexDigits_length (fuel : nat) :
  forall (k : nat) n (acc : string),
  (1 <= k)%nat -> (0 <= n < 16 ^ Z.of_nat k)%Z ->
  String.length (JS.hexDigits fuel n acc) <= k + String.length acc.
Proof.
  induction fuel as [|fuel IH]; intros k n acc Hk Hn; [cbn [JS.hexDigits]; lia|].
  cbn [JS.hexDigits]. destruct (Z.ltb_spec n 16) as [Hsmall|Hbig].
  - cbn [String.length]. lia.
  - destruct k as [|[|k]]; [lia|change (16 ^ Z.of_nat 1)%Z with 16%Z in Hn; lia|].
    rewrite Nat2Z.inj_succ, Z.pow_succ_r in Hn by lia.
    specialize (IH (S k) (n / 16)%Z (String (JS.hexDigit (n mod 16)) acc)).
    cbn [String.length] in IH.
    assert (String.length (JS.hexDigits fuel (n / 16) (String (JS.hexDigit (n mod 16)) acc))
            <= S k + S (String.length acc)).
    { apply IH; [lia|]. split; [apply Z.div_pos; lia|apply Z.div_lt_upper_bound; lia]. }
    lia.
Qed.

Lemma toUpperCase_length (s : string) :
  String.length (JS.toUpperCase s) = String.length s.
Proof. induction s as [|c s IH]; [reflexivity|]. cbn. rewrite IH. reflexivity. Qed.

Lemma isEmpty_length (s : string) : JS.isEmpty s = false -> 1 <= String.length s.
Proof. destruct s; [discriminate|]. cbn. lia. Qed.

End ReceiverFacts.

(** X1.  At the level of a line, the round trip of the codec has no
    condition: whatever the message, the line that the senders build for it
    is accepted with that message; so two messages never share a frame. *)
Theorem frame_line_is_accepted (m1 m2 : string) :
  classify (frameLine m1) = Valid m1
  /\ (frameLine m1 = frameLine m2 -> m1 = m2)
  /\ (encode m1 = encode m2 -> m1 = m2).
Proof.
  assert (Hvalid : forall m, classify (frameLine m) = Valid m).
  { intros m. destruct (frameLine_shape m) as (h & -> & Hne & Hall & Hparse).
    unfold classify. rewrite isEmpty_app_cons.
    rewrite lastIndexOf_app by (apply upperHex_excludes; [reflexivity|exact Hall]).
    destruct (Z.eqb_spec (Z.of_nat (String.length m)) (-1)); [lia|].
    rewrite substring_prefix, substringFrom_suffix, Hparse.
    rewrite bool_decide_eq_true_2 by reflexivity. reflexivity. }
  split; [apply Hvalid|]. split.
  - intros H. pose proof (Hvalid m1) as H1. rewrite H, Hvalid in H1. congruence.
  - unfold encode. intros H.
    assert (Hcut : forall m,
              JS.substring 0 (JS.lastIndexOf JS.comma (frameLine m +:+ String JS.newline EmptyString))
                (frameLine m +:+ String JS.newline EmptyString) = m).
    { intros m. destruct (frameLine_shape m) as (h & -> & _ & Hall & _).
      rewrite sapp_assoc, sapp_cons. rewrite lastIndexOf_app.
      - apply substring_prefix.
      - rewrite includes_app, (upperHex_excludes JS.comma h) by (reflexivity || exact Hall).
        reflexivity. }
    rewrite <- (Hcut m1), <- (Hcut m2), H. reflexivity.
Qed.

(** X2.  The receiver reads the checksum with [parseInt]: text after the
    digits is not looked at.  A frame followed, on the same line, by any
    text without a comma that starts with neither a hexadecimal digit nor an
    [x] is accepted with the same message. *)
Theorem trailing_text_is_accepted (message tail : string) :
  JS.includes JS.comma tail = false ->
  JS.endsNumber tail = true ->
  classify (frameLine message +:+ tail) = Valid message.
Proof.
  intros Hcomma Hend. destruct (frameLine_shape message) as (h & -> & Hne & Hall & Hparse).
  rewrite sapp_assoc, sapp_cons. unfold classify. rewrite isEmpty_app_cons.
  rewrite lastIndexOf_app
    by (rewrite includes_app, (upperHex_excludes JS.comma h), Hcomma
          by (reflexivity || exact Hall); reflexivity).
  destruct (Z.eqb_spec (Z.of_nat (String.length message)) (-1)); [lia|].
  rewrite substring_prefix, substringFrom_suffix.
  rewrite (parseInt16_stop h tail Hne Hall Hend).
  assert (Hvalue : JS.parseInt16 h = Some (JS.hexNumber 0 h))
    by (apply parseInt16_upper; assumption).
  rewrite Hparse in Hvalue. rewrite <- Hvalue.
  rewrite bool_decide_eq_true_2 by reflexivity. reflexivity.
Qed.

Lemma trailing_text_is_accepted_witness :
  classify (frameLine "D1,23.5" +:+ " (retry)") = Valid "D1,23.5".
Proof.
  apply (trailing_text_is_accepted "D1,23.5" " (retry)"); reflexivity.
Defined.

(** X3.  The verdicts of the receiver, read backwards.  A line is ignored
    only when it is empty, is a framing failure only when it is not empty
    and has no comma, and is accepted with a message only when it is that
    message, a comma, and a text without comma that [parseInt] reads as the
    checksum of the message. *)
Theorem verdict_shape (data : string) :
  (classify data = Ignored <-> data = EmptyString)
  /\ (classify data = FramingError
      <-> data <> EmptyString /\ JS.includes JS.comma data = false)
  /\ (forall message,
        classify data = Valid message ->
        exists text : string,
          data = message +:+ String JS.comma text
          /\ JS.includes JS.comma text = false
          /\ JS.parseInt16 text = Some (Crc.calculateCRC message)).
Proof.
  destruct (JS.isEmpty data) eqn:Hempty.
  { destruct data; [|discriminate Hempty]. unfold classify. cbn [JS.isEmpty].
    repeat split; try discriminate; try tauto; intros [H _]; congruence. }
  assert (Hne : data <> EmptyString) by (intros ->; discriminate Hempty).
  unfold classify. rewrite Hempty.
  pose proof (lastIndexOf_lower JS.comma data) as Hlow.
  destruct (Z.eqb_spec (JS.lastIndexOf JS.comma data) (-1)) as [Habsent|Hpresent].
  - apply lastIndexOf_absent in Habsent.
    split; [split; [discriminate|intros H; destruct (Hne H)]|].
    split; [split; [intros _; split; assumption|reflexivity]|discriminate].
  - destruct (lastIndexOf_cut JS.comma data (Z.to_nat (JS.lastIndexOf JS.comma data)))
      as (m & t & Hdata & Hlen & Ht); [lia|].
    assert (Hidx : JS.lastIndexOf JS.comma data = Z.of_nat (String.length m)) by lia.
    rewrite Hidx. clear Hidx Hlen Hpresent Hlow Hempty. subst data.
    assert (Hinc : JS.includes JS.comma (m +:+ String JS.comma t) = true).
    { rewrite includes_app. cbn [JS.includes].
      rewrite Ascii.eqb_refl, orb_true_r. reflexivity. }
    rewrite substring_prefix, substringFrom_suffix.
    split.
    { split; [|intros H; destruct (Hne H)].
      destruct (bool_decide _); discriminate. }
    split.
    { split; [destruct (bool_decide _); discriminate|].
      intros [_ H]. rewrite Hinc in H. discriminate H. }
    intros message Hvalid.
    destruct (bool_decide (JS.parseInt16 t = Some (Crc.calculateCRC m))) eqn:Hok;
      [|discriminate Hvalid].
    injection Hvalid as <-. apply bool_decide_eq_true in Hok.
    exists t. split; [reflexivity|]. split; [exact Ht|exact Hok].
Qed.

(** X4.  The checksum is a 16-bit number for every string, and the senders
    print it without padding: between one and four upper-case hexadecimal
    digits.  A frame is therefore 3 to 6 characters longer than its message,
    terminator included. *)
Theorem checksum_text_size (message : string) :
  (0 <= Crc.calculateCRC message < 65536)%Z
  /\ (exists text : string,
        encode message = message +:+ "," +:+ text +:+ String JS.newline EmptyString
        /\ JS.allChars JS.isUpperHexDigit text = true
        /\ 1 <= String.length text <= 4)
  /\ String.length message + 3 <= String.length (encode message)
     <= String.length message + 6.
Proof.
  pose proof (calculateCRC_range message) as Hrange.
  set (text := JS.toUpperCase (JS.toString16 (Crc.calculateCRC message))).
  destruct (checksumText_facts (Crc.calculateCRC message)) as (Hne & Hall & _);
    [lia|]. fold text in Hne, Hall.
  assert (Hlen : 1 <= String.length text <= 4).
  { split; [apply isEmpty_length; exact Hne|].
    unfold text. rewrite toUpperCase_length. unfold JS.toString16.
    destruct (Z.ltb_spec (Crc.calculateCRC message) 0); [lia|].
    pose proof (hexDigits_length (S (Z.to_nat (Z.log2 (Crc.calculateCRC message)))) 4
                  (Crc.calculateCRC message) EmptyString) as H4.
    cbn [String.length] in H4. change (16 ^ Z.of_nat 4)%Z with 65536%Z in H4.
    change (2 ^ 16)%Z with 65536%Z in Hrange. lia. }
  split; [exact Hrange|]. split.
  - exists text. split; [|split; [exact Hall|exact Hlen]].
    unfold encode, frameLine. fold text. rewrite !sapp_assoc. reflexivity.
  - unfold encode, frameLine. fold text. rewrite !slength_app.
    cbn [String.length]. lia.
Qed.

Lemma frame_line_is_accepted_witness :
  classify (frameLine "D1,23.5") = Valid "D1,23.5" /\ "D1,23.5" = "D1,23.5".
Proof.
  destruct (frame_line_is_accepted "D1,23.5" "D1,23.5") as (H1 & H2 & _).
  split; [exact H1|apply H2; reflexivity].
Defined.

Lemma verdict_shape_witness :
  exists text : string,
    frameLine "D1" = "D1" +:+ String JS.comma text
    /\ JS.includes JS.comma text = false
    /\ JS.parseInt16 text = Some (Crc.calculateCRC "D1").
Proof.
  apply (proj2 (proj2 (verdict_shape (frameLine "D1")))).
  vm_compute. reflexivity.
Defined.

(* ===================================================================== *)
(** ** More on the serial buffer: chunks and lines *)
(* ===================================================================== *)

Section BufferFacts.

Implicit Types (s : State) (buffer text : string).

Lemma split_nonempty sep (str : string) : JS.split sep str <> [].
Proof.
  destruct str as [|c str]; cbn [JS.split]; [discriminate|].
  destruct (Ascii.eqb c sep); [discriminate|].
  destruct (JS.split sep str); discriminate.
Qed.

Lemma split_plain_sep sep (str : string) :
  JS.includes sep str = false -> JS.split sep str = [str].
Proof.
  induction str as [|c str IH]; [reflexivity|]. cbn [JS.includes JS.split].
  intros [Hc Hs]%orb_false_elim. rewrite Hc, (IH Hs). reflexivity.
Qed.

(** No piece of a split contains the separator. *)
Lemma split_pieces sep (str : string) :
  Forall (fun piece => JS.includes sep piece = false) (JS.split sep str).
Proof.
  induction str as [|c str IH]; cbn [JS.split]; [repeat constructor|].
  destruct (Ascii.eqb c sep) eqn:Hc; [constructor; [reflexivity|exact IH]|].
  destruct (JS.split sep str) as [|piece pieces];
    [repeat constructor; cbn [JS.includes]; rewrite Hc; reflexivity|].
  inversion IH as [|? ? Hp Hps]; subst. constructor; [|exact Hps].
  cbn [JS.includes]. rewrite Hc, Hp. reflexivity.
Qed.





(** The handlers of the lines neither read nor write the serial buffer. *)
Lemma handleSerialData_setSerialBuffer buffer data s :
  handleSerialData data (setSerialBuffer buffer s)
  = setSerialBuffer buffer (handleSerialData data s).
Proof.
  unfold handleSerialData, handleCorruptedData, handleMessage, recordReading,
    registerDevice, sendConnectedMessage, connectedLoop, deviceAt, isRegistered,
    isConnected, errorCountOf, nextIndex.
  fields.
  repeat (match goal with
          | |- context [match ?x with _ => _ end] => destruct x
          end; fields); reflexivity.
Qed.

Lemma handleLines_setSerialBuffer buffer (lines : list string) s :
  fold_left (fun s line => handleSerialData (JS.trim line) s) lines
    (setSerialBuffer buffer s)
  = setSerialBuffer buffer
      (fold_left (fun s line => handleSerialData (JS.trim line) s) lines s).
Proof.
  revert s. induction lines as [|line lines IH]; intros s; [reflexivity|].
  cbn [fold_left]. rewrite handleSerialData_setSerialBuffer. apply IH.
Qed.

(** [receive]: the lines are handled, the rest is the new buffer. *)
Lemma receive_unfold text s :
  receive text s
  = setSerialBuffer (incompleteLine (serialBuffer s +:+ text))
      (fold_left (fun s line => handleSerialData (JS.trim line) s)
         (completeLines (serialBuffer s +:+ text)) s).
Proof.
  unfold receive, processSerialBuffer. fields.
  rewrite <- handleLines_setSerialBuffer. reflexivity.
Qed.

End BufferFacts.


(** X6.  After every chunk the buffer holds an incomplete line: it contains
    no line terminator.  A chunk that completes no line changes the buffer
    only, and every line handed to [handleSerialData] is free of line
    terminators. *)
Theorem buffer_holds_an_incomplete_line (text : string) (s : State) :
  JS.includes JS.newline (serialBuffer (receive text s)) = false
  /\ Forall (fun line => JS.includes JS.newline line = false)
       (completeLines (serialBuffer s +:+ text))
  /\ (JS.includes JS.newline (serialBuffer s +:+ text) = false ->
      receive text s = setSerialBuffer (serialBuffer s +:+ text) s).
Proof.
  pose proof (split_pieces JS.newline (serialBuffer s +:+ text)) as Hpieces.
  pose proof (split_nonempty JS.newline (serialBuffer s +:+ text)) as Hne.
  split; [|split].
  - rewrite receive_unfold. fields. unfold incompleteLine.
    rewrite Forall_forall in Hpieces. apply Hpieces.
    apply list_elem_of_In. destruct (exists_last Hne) as (l & x & E).
    rewrite E, last_last. apply in_or_app. right. left. reflexivity.
  - unfold completeLines. destruct (exists_last Hne) as (l & x & E).
    rewrite E, removelast_last. rewrite E in Hpieces.
    apply Forall_app in Hpieces. apply Hpieces.
  - intros Hfree. rewrite receive_unfold. unfold completeLines, incompleteLine.
    rewrite (split_plain_sep JS.newline _ Hfree). reflexivity.
Qed.

Lemma buffer_holds_an_incomplete_line_witness :
  receive "D1,3B" connected = setSerialBuffer (serialBuffer connected +:+ "D1,3B") connected.
Proof.
  apply (proj2 (proj2 (buffer_holds_an_incomplete_line "D1,3B" connected))).
  vm_compute. reflexivity.
Defined.

(* ===================================================================== *)
(** ** The invariant of the session, resets included *)
(* ===================================================================== *)

Section SessionFacts.

Implicit Types (s : State) (events : list Event).

Lemma orderly_refl s : orderly s s.
Proof. unfold orderly. repeat split; left; reflexivity. Qed.

Lemma orderly_handleCorruptedData s : orderly s (handleCorruptedData s).
Proof.
  destruct (deviceAt s) as [a|] eqn:Hat; [destruct (JS.isEmpty a) eqn:Hne|].
  - rewrite handleCorruptedData_unattributed; [apply orderly_refl|].
    right. rewrite Hat. destruct a; [reflexivity|discriminate].
  - destruct (handleCorruptedData_attributed s a Hat Hne)
      as (_ & H2 & H3 & _ & _ & H6 & H7 & H8 & _).
    unfold orderly. split; [left; exact H3|]. split; [|split; [left; exact H6|]].
    + destruct (maxErrorCount <? _); [right|left; exact H2]. split; [|exact H2].
      intros E. unfold deviceAt in Hat. rewrite E in Hat. discriminate Hat.
    + split; left; [exact H7|exact H8].
  - rewrite handleCorruptedData_unattributed; [apply orderly_refl|left; exact Hat].
Qed.

Lemma orderly_handleMessage message s : orderly s (handleMessage message s).
Proof.
  destruct (JS.includes JS.comma message && isRegistered s (addressField message))
    eqn:Hread.
  - apply andb_prop in Hread as [Hinc Hreg].
    destruct (handleMessage_reading message s Hinc Hreg)
      as (_ & _ & H3 & H4 & _ & H6 & H7 & H8 & _).
    unfold orderly. split; [left; exact H4|]. split; [|split; [left; exact H6|]].
    + right. split; [|exact H3]. apply isRegistered_true in Hreg.
      intros E. rewrite E in Hreg. inversion Hreg.
    + split; left; [exact H7|exact H8].
  - rewrite (handleMessage_announce _ _ Hread).
    destruct (negb (isConnected s message) && negb (isRegistered s message)) eqn:Hnew;
      [|apply orderly_refl].
    apply andb_prop in Hnew as [_ Hreg]. apply negb_true_iff, isRegistered_false in Hreg.
    destruct (registerDevice_effect message s)
      as (H1 & _ & _ & _ & H5 & H6 & H7 & H8 & _).
    unfold orderly. split; [right; exists message; split; [exact Hreg|exact H1]|].
    split; [left; exact H5|]. split; [left; exact H6|]. split; [left; exact H7|].
    right. eexists. split; [|exact H8]. right. right. left. eexists. reflexivity.
Qed.

Lemma orderly_handleSerialData data s : orderly s (handleSerialData data s).
Proof.
  unfold handleSerialData. destruct (classify data) as [| | |message].
  - apply orderly_refl.
  - apply (orderly_handleCorruptedData (log _ (log _ s))).
  - apply (orderly_handleCorruptedData (log _ (log _ s))).
  - apply (orderly_handleMessage message (log _ s)).
Qed.

Lemma orderly_requestTemperature s : orderly s (requestTemperature s).
Proof.
  destruct (isSampling s) eqn:Hs; [destruct (deviceAddresses s) as [|a l] eqn:Ha|].
  - rewrite requestTemperature_idle by (left; exact Ha). apply orderly_refl.
  - destruct (requestTemperature_effect s) as (H1 & _ & H3 & H4 & H5 & _ & _ & H8);
      [rewrite Ha; discriminate|exact Hs|].
    unfold orderly. split; [left; exact H3|]. split; [left; exact H4|].
    split; [left; congruence|]. split; [left; exact H8|].
    right. eexists. split; [|exact H1]. right. right. right. eexists. reflexivity.
  - rewrite requestTemperature_idle by (right; exact Hs). apply orderly_refl.
Qed.

Lemma orderly_connectedLoop address i s : orderly s (connectedLoop address i s).
Proof.
  destruct (Nat.lt_ge_cases i connectedMessageRetries) as [Hi|Hi].
  - destruct (connectedLoop_send address i s Hi) as (H1 & _ & _ & H4 & _ & H6 & H7 & H8).
    unfold orderly. split; [left; exact H4|]. split; [left; exact H6|].
    split; [left; exact H7|]. split; [left; exact H8|].
    right. eexists. split; [|exact H1]. right. right. left. eexists. reflexivity.
  - rewrite (connectedLoop_done address i s Hi). unfold orderly. fields.
    repeat split; left; reflexivity.
Qed.

Lemma startDiscovery_cursor s :
  currentDeviceIndex (startDiscovery s) = currentDeviceIndex s.
Proof. unfold startDiscovery. destruct (_ <=? _); reflexivity. Qed.

Lemma orderly_startDiscovery s : orderly s (startDiscovery s).
Proof.
  destruct (Nat.le_gt_cases maxDiscoveryAttempts (discoveryAttempts s)) as [H|H].
  - rewrite (startDiscovery_exhausted s H). unfold orderly. fields.
    repeat split; left; reflexivity.
  - destruct (startDiscovery_round s H) as (H1 & H2 & _ & H4 & H5).
    unfold orderly. split; [left; exact H5|].
    split; [left; apply startDiscovery_cursor|]. split; [left; exact H4|].
    split; [right; split; [exact H|exact H1]|].
    right. eexists. split; [|exact H2]. right. left. reflexivity.
Qed.

Lemma orderly_discoveryCheck s : orderly s (discoveryCheck s).
Proof.
  destruct (Nat.lt_ge_cases (length (deviceAddresses s)) 4) as [Hfew|Hfour].
  - rewrite (discoveryCheck_retry s Hfew). apply (orderly_startDiscovery (log _ s)).
  - destruct (discoveryCheck_complete s Hfour) as (H1 & H2 & _ & H4 & H5).
    unfold orderly. split; [left; exact H5|]. split; [left|].
    + unfold discoveryCheck. destruct (_ <? 4); [apply (startDiscovery_cursor (log _ s))|].
      unfold requestTemperature. destruct (_ || _); reflexivity.
    + split; [right; split; [exact H1|exact Hfour]|]. split; [left; exact H4|].
      right. eexists. split; [|exact H2]. right. right. right. eexists. reflexivity.
Qed.

Lemma orderly_fire task s : orderly s (fire task s).
Proof.
  destruct task; cbn [fire].
  - apply orderly_startDiscovery.
  - apply orderly_discoveryCheck.
  - apply orderly_requestTemperature.
  - apply orderly_connectedLoop.
Qed.

(** An orderly turn keeps the invariant. *)
Lemma sessionInv_orderly s s' : sessionInv s -> orderly s s' -> sessionInv s'.
Proof.
  intros (I1 & I2 & I3 & I4 & I5) (O1 & O2 & O3 & O4 & O5).
  assert (Hlen : length (deviceAddresses s) <= length (deviceAddresses s')).
  { destruct O1 as [->|(a & _ & ->)]; [lia|rewrite length_app; lia]. }
  unfold sessionInv. split; [|split; [|split; [|split]]].
  - destruct O1 as [->|(a & Ha & ->)]; [exact I1|].
    apply NoDup_app. split; [exact I1|]. split; [|apply NoDup_singleton].
    intros x Hx Hx'. apply list_elem_of_singleton in Hx'. subst x. contradiction.
  - destruct O2 as [->|(Hne & ->)]; [lia|].
    assert (Hpos : length (deviceAddresses s) <> 0)
      by (destruct (deviceAddresses s); [congruence|discriminate]).
    pose proof (Nat.mod_upper_bound (currentDeviceIndex s + 1) _ Hpos).
    unfold nextIndex. lia.
  - destruct O3 as [->|(_ & Hfour)]; [|intros _; lia].
    intros Hs. specialize (I3 Hs). lia.
  - destruct O4 as [->|(Hleft & ->)]; [exact I4|lia].
  - destruct O5 as [->|(frame & Hf & ->)]; [exact I5|].
    apply Forall_app. split; [exact I5|]. constructor; [exact Hf|constructor].
Qed.

Lemma sessionInv_receive text s : sessionInv s -> sessionInv (receive text s).
Proof.
  intros I. unfold receive, processSerialBuffer.
  set (s0 := setSerialBuffer _ (setSerialBuffer _ s)).
  assert (I0 : sessionInv s0) by exact I. clearbody s0.
  revert s0 I0. induction (completeLines _) as [|line lines IH]; intros s0 I0; [exact I0|].
  cbn [fold_left]. apply IH.
  exact (sessionInv_orderly _ _ I0 (orderly_handleSerialData _ s0)).
Qed.

Lemma sessionInv_resetDiscovery s : sessionInv s -> sessionInv (resetDiscovery s).
Proof.
  intros (_ & _ & _ & _ & I5). unfold sessionInv, resetDiscovery. fields.
  split; [apply NoDup_nil_2|]. split; [cbn [length]; lia|]. split; [discriminate|].
  split; [lia|]. apply Forall_app. split; [exact I5|].
  constructor; [left; reflexivity|constructor].
Qed.

Lemma sessionInv_step e s s' : step e s = Some s' -> sessionInv s -> sessionInv s'.
Proof.
  intros Hstep I. destruct e as [k|text|].
  - unfold step in Hstep. destruct (timers s !! k) as [[delay task]|]; [|discriminate Hstep].
    injection Hstep as <-.
    apply (sessionInv_orderly (setTimers (delete k (timers s)) s)); [exact I|].
    apply orderly_fire.
  - cbn [step] in Hstep. injection Hstep as <-. apply sessionInv_receive. exact I.
  - cbn [step] in Hstep. injection Hstep as <-. apply sessionInv_resetDiscovery. exact I.
Qed.

Lemma sessionInv_setTimeout task delay s :
  sessionInv s -> sessionInv (setTimeout task delay s).
Proof. intros I. exact I. Qed.

Lemma sessionInv_log line s : sessionInv s -> sessionInv (log line s).
Proof. intros I. exact I. Qed.

Lemma sessionInv_initial : sessionInv initial.
Proof.
  unfold sessionInv, initial. fields.
  split; [apply NoDup_nil_2|]. split; [cbn [length]; lia|]. split; [discriminate|].
  split; [unfold maxDiscoveryAttempts; lia|constructor].
Qed.

Lemma sessionInv_connected : sessionInv connected.
Proof.
  unfold connected, connectSerial.
  apply sessionInv_setTimeout, sessionInv_resetDiscovery, sessionInv_log.
  exact sessionInv_initial.
Qed.

(** The invariant holds in every state that the engine reaches. *)
Lemma sessionInv_run events :
  forall s s', run events s = Some s' -> sessionInv s -> sessionInv s'.
Proof.
  induction events as [|e events IH]; intros s s' Hrun I.
  - cbn [run] in Hrun. injection Hrun as <-. exact I.
  - cbn [run] in Hrun. destruct (step e s) as [s1|] eqn:Hstep; [|discriminate Hrun].
    apply (IH s1 s' Hrun). exact (sessionInv_step e s s1 Hstep I).
Qed.

End SessionFacts.

(** X7.  In every state that the engine reaches from the connection,
    whatever arrives and however often the reset button is used, the
    registry holds no address twice. *)
Theorem registry_addresses_are_unique (events : list Event) (s : State) :
  run events connected = Some s -> NoDup (deviceAddresses s).
Proof.
  intros Hrun.
  destruct (sessionInv_run events connected s Hrun sessionInv_connected) as (I1 & _).
  exact I1.
Qed.

Lemma registry_addresses_are_unique_witness :
  NoDup (deviceAddresses oneDeviceFound).
Proof.
  apply (registry_addresses_are_unique [Chunk (encode "D1")] oneDeviceFound).
  reflexivity.
Defined.

(** X8.  In every state that the engine reaches, the cursor is on a device
    of the registry as soon as the registry is not empty.  So
    [requestTemperature] either writes nothing or polls a registered
    address: a poll never goes to the address [undefined]. *)
Theorem poll_goes_to_a_registered_device (events : list Event) (s : State) :
  run events connected = Some s ->
  (deviceAddresses s = [] ->
   currentDeviceIndex s = 0 /\ requestTemperature s = s)
  /\ (deviceAddresses s <> [] ->
      exists address,
        deviceAt s = Some address
        /\ address ∈ deviceAddresses s
        /\ (requestTemperature s = s
            \/ written (requestTemperature s)
               = written s ++ [encode (address +:+ ",READTEMP")])).
Proof.
  intros Hrun.
  destruct (sessionInv_run events connected s Hrun sessionInv_connected)
    as (_ & I2 & _). split.
  - intros E. rewrite E in I2. cbn [length] in I2.
    split; [lia|apply requestTemperature_idle; left; exact E].
  - intros Hne.
    assert (Hlt : currentDeviceIndex s < length (deviceAddresses s))
      by (destruct (deviceAddresses s); [congruence|cbn [length] in *; lia]).
    destruct (lookup_lt_is_Some_2 _ _ Hlt) as [a Ha].
    exists a. split; [exact Ha|]. split; [apply list_elem_of_lookup; eauto|].
    destruct (isSampling s) eqn:Hs.
    + right. destruct (requestTemperature_effect s Hne Hs) as (H1 & _).
      rewrite H1. unfold deviceAt. rewrite Ha. reflexivity.
    + left. apply requestTemperature_idle. right. exact Hs.
Qed.

Lemma poll_goes_to_a_registered_device_witness :
  exists address,
    deviceAt oneDeviceFound = Some address /\ address ∈ deviceAddresses oneDeviceFound.
Proof.
  destruct (poll_goes_to_a_registered_device [Chunk (encode "D1")] oneDeviceFound)
    as [_ H]; [reflexivity|].
  destruct H as (a & H1 & H2 & _); [vm_compute; discriminate|].
  exists a. split; [exact H1|exact H2].
Defined.

(** X9.  In every state that the engine reaches, resets included, sampling
    is active only while at least four devices are registered, and at most
    1000 discovery attempts have been counted since the last reset. *)
Theorem sampling_needs_four_devices (events : list Event) (s : State) :
  run events connected = Some s ->
  (isSampling s = true -> 4 <= length (deviceAddresses s))
  /\ discoveryAttempts s <= 1000.
Proof.
  intros Hrun.
  destruct (sessionInv_run events connected s Hrun sessionInv_connected)
    as (_ & _ & I3 & I4 & _).
  split; [exact I3|exact I4].
Qed.

Lemma sampling_needs_four_devices_witness :
  discoveryAttempts oneDeviceFound <= 1000.
Proof.
  apply (sampling_needs_four_devices [Chunk (encode "D1")] oneDeviceFound).
  reflexivity.
Defined.

(** X10.  Whatever arrives on the serial line, the engine writes frames of
    four kinds only, each with its checksum: [RESET], [DISCOVER],
    [address,CONNECTED] and [address,READTEMP].  Nothing received is ever
    echoed. *)
Theorem only_master_frames_are_written (events : list Event) (s : State) :
  run events connected = Some s ->
  forall frame,
    frame ∈ written s ->
    frame = encode "RESET"
    \/ frame = encode "DISCOVER"
    \/ (exists a, frame = encode (a +:+ ",CONNECTED"))
    \/ (exists a, frame = encode (a +:+ ",READTEMP")).
Proof.
  intros Hrun frame Hin.
  destruct (sessionInv_run events connected s Hrun sessionInv_connected)
    as (_ & _ & _ & _ & I5).
  rewrite Forall_forall in I5. exact (I5 frame Hin).
Qed.

Lemma only_master_frames_are_written_witness :
  encode "RESET" = encode "RESET"
  \/ encode "RESET" = encode "DISCOVER"
  \/ (exists a, encode "RESET" = encode (a +:+ ",CONNECTED"))
  \/ (exists a, encode "RESET" = encode (a +:+ ",READTEMP")).
Proof.
  apply (only_master_frames_are_written [] connected eq_refl (encode "RESET")).
  vm_compute. left.
Defined.

(* ===================================================================== *)
(** ** More on the handlers: edge cases *)
(* ===================================================================== *)



(** X12.  A valid announcement of an address that is already registered
    changes nothing but the log: no second entry, no second handshake, and
    the error count and the temperature of the device are kept. *)
Theorem duplicate_announcement_is_ignored (data message : string) (s : State) :
  classify data = Valid message ->
  JS.includes JS.comma message = false ->
  message ∈ deviceAddresses s ->
  handleSerialData data s = log ("Received: " +:+ data) s.
Proof.
  intros Hvalid Hbare Hin. rewrite (handleSerialData_valid _ _ _ Hvalid).
  set (s0 := log ("Received: " +:+ data) s).
  rewrite handleMessage_announce by (rewrite Hbare; reflexivity).
  assert (Hreg : isRegistered s0 message = true) by (apply isRegistered_true; exact Hin).
  rewrite Hreg, andb_false_r. reflexivity.
Qed.

Lemma duplicate_announcement_is_ignored_witness :
  handleSerialData (frameLine "D1") oneDeviceFound
  = log ("Received: " +:+ frameLine "D1") oneDeviceFound.
Proof.
  apply (duplicate_announcement_is_ignored (frameLine "D1") "D1" oneDeviceFound).
  - vm_compute. reflexivity.
  - reflexivity.
  - vm_compute. left.
Defined.

(** X13.  Only the first two fields of a reading are used: in a valid
    message [address,value,more] of a registered address, the value is
    recorded and whatever follows the second comma is dropped. *)
Theorem extra_fields_are_dropped (data address value more : string) (s : State) :
  classify data = Valid (address +:+ "," +:+ value +:+ "," +:+ more) ->
  JS.includes JS.comma address = false ->
  JS.includes JS.comma value = false ->
  address ∈ deviceAddresses s ->
  let s' := handleSerialData data s in
  deviceTemperatures s' !! address = Some value
  /\ errorCounters s' !! address = Some 0
  /\ currentDeviceIndex s' = nextIndex s
  /\ deviceAddresses s' = deviceAddresses s.
Proof.
  intros Hvalid Ha Hv Hin s'. unfold s'.
  rewrite (handleSerialData_valid _ _ _ Hvalid).
  set (message := address +:+ "," +:+ value +:+ "," +:+ more).
  assert (Hsplit : JS.split JS.comma message
                   = address :: value :: JS.split JS.comma more).
  { unfold message.
    change (address +:+ "," +:+ value +:+ "," +:+ more)
      with (address +:+ String JS.comma (value +:+ String JS.comma more)).
    rewrite (split_first address _ Ha), (split_first value _ Hv). reflexivity. }
  assert (Hinc : JS.includes JS.comma message = true).
  { unfold message.
    change (address +:+ "," +:+ value +:+ "," +:+ more)
      with (address +:+ String JS.comma (value +:+ String JS.comma more)).
    rewrite includes_app. cbn [JS.includes].
    rewrite Ascii.eqb_refl, orb_true_r. reflexivity. }
  assert (Haddr : addressField message = address)
    by (unfold addressField; rewrite Hsplit; reflexivity).
  assert (Htemp : tempDataField message = value)
    by (unfold tempDataField; rewrite Hsplit; reflexivity).
  destruct (handleMessage_reading message (log ("Received: " +:+ data) s))
    as (H1 & H2 & H3 & H4 & _); [exact Hinc|rewrite Haddr; apply isRegistered_true; exact Hin|].
  rewrite Haddr, Htemp in H1. rewrite Haddr in H2.
  split; [rewrite H1; apply lookup_insert_eq|].
  split; [rewrite H2; apply lookup_insert_eq|]. split; [exact H3|exact H4].
Qed.

Lemma extra_fields_are_dropped_witness :
  deviceTemperatures (handleSerialData (frameLine "D1,23.5,C") oneDeviceFound) !! "D1"
  = Some "23.5".
Proof.
  apply (extra_fields_are_dropped (frameLine "D1,23.5,C") "D1" "23.5" "C" oneDeviceFound).
  - vm_compute. reflexivity.
  - reflexivity.
  - reflexivity.
  - vm_compute. left.
Defined.



(* ===================================================================== *)
(** ** More on reset and connection *)
(* ===================================================================== *)

Section ResetFacts.

Implicit Types (s : State) (events : list Event).

(** Between two resets the [DISCOVER] frames written grow with the
    attempts, and the attempts stay within their maximum. *)
Lemma budget_step base e s s' :
  isReset e = false -> step e s = Some s' ->
  discoveryAttempts s <= maxDiscoveryAttempts
  /\ sentCount "DISCOVER" s = base + discoveryAttempts s ->
  discoveryAttempts s' <= maxDiscoveryAttempts
  /\ sentCount "DISCOVER" s' = base + discoveryAttempts s'.
Proof.
  intros Hreset Hstep [B1 B2].
  assert (Hquiet : forall s0, discoveryAttempts s0 = discoveryAttempts s ->
            sentCount "DISCOVER" s0 = sentCount "DISCOVER" s ->
            quiet s0 s' ->
            discoveryAttempts s' <= maxDiscoveryAttempts
            /\ sentCount "DISCOVER" s' = base + discoveryAttempts s').
  { intros s0 E1 E2 (Q1 & _ & Q3 & _). rewrite Q1, Q3, E1, E2. split; assumption. }
  destruct e as [k|text|]; [| |discriminate Hreset].
  - unfold step in Hstep. destruct (timers s !! k) as [[delay task]|];
      [|discriminate Hstep].
    injection Hstep as <-. set (s0 := setTimers (delete k (timers s)) s).
    destruct (isDiscoveryTask task) eqn:Htask.
    + destruct (discovery_turn task s0 Htask)
        as (_ & [(_ & Q & _)|[(H1 & H2 & H3 & _)|(_ & H2 & H3 & _)]]).
      * apply (Hquiet s0); [reflexivity|reflexivity|exact Q].
      * rewrite H2, H3. change (discoveryAttempts s0) with (discoveryAttempts s) in *.
        change (sentCount "DISCOVER" s0) with (sentCount "DISCOVER" s). lia.
      * rewrite H2, H3. split; assumption.
    + apply (Hquiet s0); [reflexivity|reflexivity|apply other_turn; exact Htask].
  - cbn [step] in Hstep. injection Hstep as <-.
    apply (Hquiet s); [reflexivity|reflexivity|apply quiet_receive].
Qed.

Lemma budget_run base events :
  forall s s',
  Forall (fun e => isReset e = false) events ->
  run events s = Some s' ->
  discoveryAttempts s <= maxDiscoveryAttempts
  /\ sentCount "DISCOVER" s = base + discoveryAttempts s ->
  discoveryAttempts s' <= maxDiscoveryAttempts
  /\ sentCount "DISCOVER" s' = base + discoveryAttempts s'.
Proof.
  induction events as [|e events IH]; intros s s' Hno Hrun B.
  - cbn [run] in Hrun. injection Hrun as <-. exact B.
  - inversion Hno as [|? ? He Hno']; subst. cbn [run] in Hrun.
    destruct (step e s) as [s1|] eqn:Hstep; [|discriminate Hrun].
    apply (IH s1 s' Hno' Hrun). exact (budget_step base e s s1 He Hstep B).
Qed.

End ResetFacts.

(** X15.  A reset clears the registry with its temperatures, flags and
    counters, puts the cursor and the attempts back to 0 and turns sampling
    off; it writes one [RESET] frame, keeps the serial buffer and cancels no
    pending timer, and schedules [startDiscovery] after 1000 ms.  Each reset
    opens a fresh budget: until the next reset, the [DISCOVER] frames
    written since are as many as the attempts, at most 1000. *)
Theorem reset_opens_a_fresh_budget (s0 : State) :
  (deviceAddresses (resetDiscovery s0) = []
   /\ deviceTemperatures (resetDiscovery s0) = ∅
   /\ connectedDevices (resetDiscovery s0) = ∅
   /\ errorCounters (resetDiscovery s0) = ∅
   /\ currentDeviceIndex (resetDiscovery s0) = 0
   /\ discoveryAttempts (resetDiscovery s0) = 0
   /\ isSampling (resetDiscovery s0) = false
   /\ serialBuffer (resetDiscovery s0) = serialBuffer s0
   /\ written (resetDiscovery s0) = written s0 ++ [encode "RESET"]
   /\ timers (resetDiscovery s0) = timers s0 ++ [(1000, StartDiscovery)])
  /\ (forall events s,
        Forall (fun e => isReset e = false) events ->
        run events (resetDiscovery s0) = Some s ->
        sentCount "DISCOVER" s = sentCount "DISCOVER" s0 + discoveryAttempts s
        /\ discoveryAttempts s <= 1000).
Proof.
  split; [unfold resetDiscovery; fields; repeat split; reflexivity|].
  intros events s Hno Hrun.
  destruct (budget_run (sentCount "DISCOVER" s0) events (resetDiscovery s0) s Hno Hrun)
    as [B1 B2]; [|split; [exact B2|exact B1]].
  split; [unfold resetDiscovery, maxDiscoveryAttempts; fields; lia|].
  replace (discoveryAttempts (resetDiscovery s0)) with 0 by reflexivity.
  rewrite Nat.add_0_r.
  apply (sentCount_other _ (encode "RESET") s0); [reflexivity|].
  intros H%encode_inj. discriminate H.
Qed.

(** X16.  A reset does not stop a handshake that is under way.  When the
    pause after the third confirmation ends after a reset, the device is
    flagged as confirmed in the flags that the reset has just cleared,
    while the registry stays empty; from then on a valid announcement of
    that device is logged and otherwise ignored: it is not registered
    again. *)
Theorem handshake_outlives_reset (s : State) (address : string) (k delay : nat) :
  timers s !! k = Some (delay, ConnectedResume address 2) ->
  exists s',
    run [ClickReset; Expire k] s = Some s'
    /\ deviceAddresses s' = []
    /\ connectedDevices s' !! address = Some true
    /\ (forall data,
          classify data = Valid address ->
          JS.includes JS.comma address = false ->
          handleSerialData data s' = log ("Received: " +:+ data) s').
Proof.
  intros Hk.
  assert (Hk' : timers (resetDiscovery s) !! k = Some (delay, ConnectedResume address 2)).
  { unfold resetDiscovery. fields.
    rewrite lookup_app_l by (apply lookup_lt_Some in Hk; exact Hk). exact Hk. }
  set (s0 := setTimers (delete k (timers (resetDiscovery s))) (resetDiscovery s)).
  exists (fire (ConnectedResume address 2) s0).
  split; [cbn [run step]; rewrite Hk'; reflexivity|].
  cbn [fire]. rewrite connectedLoop_done by (unfold connectedMessageRetries; lia).
  unfold s0, resetDiscovery. fields.
  split; [reflexivity|]. split; [apply lookup_insert_eq|].
  intros data Hvalid Hbare. rewrite (handleSerialData_valid _ _ _ Hvalid).
  rewrite handleMessage_announce by (rewrite Hbare; reflexivity).
  unfold isConnected. fields. rewrite lookup_insert_eq. reflexivity.
Qed.

Lemma handshake_outlives_reset_witness :
  exists s',
    run [ClickReset; Expire 2] thirdPause = Some s'
    /\ deviceAddresses s' = []
    /\ connectedDevices s' !! "D1" = Some true.
Proof.
  destruct (handshake_outlives_reset thirdPause "D1" 2 100) as (s' & H1 & H2 & H3 & _).
  - vm_compute. reflexivity.
  - exists s'. split; [exact H1|]. split; [exact H2|exact H3].
Defined.

(** X17.  [connectSerial] starts the discovery loop twice: it calls
    [resetDiscovery], which schedules [startDiscovery] after 1000 ms, and
    schedules it once more after 2000 ms.  A timer set on [startDiscovery]
    broadcasts when it expires, with attempts left, whatever the registry
    and the sampling flag are.  So a [DISCOVER] can still go out after
    sampling has started: when four devices answer the first round, the
    second timer is still pending while sampling is active. *)
Theorem connection_starts_two_loops :
  (forall s,
     timers (connectSerial s)
     = timers s ++ [(1000, StartDiscovery); (2000, StartDiscovery)])
  /\ (forall s k delay,
        timers s !! k = Some (delay, StartDiscovery) ->
        discoveryAttempts s < maxDiscoveryAttempts ->
        exists s',
          step (Expire k) s = Some s'
          /\ written s' = written s ++ [encode "DISCOVER"]
          /\ isSampling s' = isSampling s
          /\ deviceAddresses s' = deviceAddresses s)
  /\ (exists s,
        unconfirmedStart = Some s
        /\ isSampling s = true
        /\ length (deviceAddresses s) = 4
        /\ timers s !! 0 = Some (2000, StartDiscovery)
        /\ discoveryAttempts s < maxDiscoveryAttempts).
Proof.
  split; [|split].
  - intros s. unfold connectSerial, resetDiscovery. fields.
    rewrite <- app_assoc. reflexivity.
  - intros s k delay Hk Hleft. unfold step. rewrite Hk. eexists. split; [reflexivity|].
    cbn [fire].
    destruct (startDiscovery_round (setTimers (delete k (timers s)) s) Hleft)
      as (_ & H2 & _ & H4 & H5).
    split; [exact H2|]. split; [exact H4|exact H5].
  - assert (H : match unconfirmedStart with
                | Some s =>
                    isSampling s
                    && (length (deviceAddresses s) =? 4)
                    && match timers s !! 0 with
                       | Some (delay, StartDiscovery) => delay =? 2000
                       | _ => false
                       end
                    && (discoveryAttempts s <? maxDiscoveryAttempts)
                | None => false
                end = true) by (vm_compute; reflexivity).
    destruct unconfirmedStart as [s|]; [|discriminate H].
    exists s. split; [reflexivity|].
    apply andb_prop in H as [H H4]. apply andb_prop in H as [H H3].
    apply andb_prop in H as [H1 H2].
    split; [exact H1|]. split; [apply Nat.eqb_eq; exact H2|].
    split; [|apply Nat.ltb_lt; exact H4].
    destruct (timers s !! 0) as [[delay [| | |a i]]|]; try discriminate H3.
    apply Nat.eqb_eq in H3. subst delay. reflexivity.
Qed.

Lemma reset_opens_a_fresh_budget_witness :
  match run [Expire 0] (resetDiscovery initial) with
  | Some s => sentCount "DISCOVER" s = sentCount "DISCOVER" initial + discoveryAttempts s
  | None => False
  end.
Proof.
  destruct (run [Expire 0] (resetDiscovery initial)) as [s|] eqn:E.
  - refine (proj1 (proj2 (reset_opens_a_fresh_budget initial) [Expire 0] s _ E)).
    repeat constructor.
  - vm_compute in E. discriminate E.
Defined.

Lemma connection_starts_two_loops_witness :
  exists s',
    step (Expire 0) connected = Some s'
    /\ written s' = written connected ++ [encode "DISCOVER"].
Proof.
  destruct (proj1 (proj2 connection_starts_two_loops) connected 0 1000)
    as (s' & H1 & H2 & _).
  - vm_compute. reflexivity.
  - unfold maxDiscoveryAttempts. cbn. lia.
  - exists s'. split; assumption.
Defined.

(* ===================================================================== *)
(** ** The registry and its dictionaries *)
(* ===================================================================== *)

Section EntriesFacts.

Implicit Types (s : State).

(** A turn that keeps the keys of the three dictionaries and registers at
    most one address, with its entries, keeps the entries of the
    registry. *)
Lemma hasEntries_kept s s' :
  hasEntries s ->
  (forall a, is_Some (deviceTemperatures s !! a) -> is_Some (deviceTemperatures s' !! a)) ->
  (forall a, is_Some (errorCounters s !! a) -> is_Some (errorCounters s' !! a)) ->
  (forall a, is_Some (connectedDevices s !! a) -> is_Some (connectedDevices s' !! a)) ->
  (deviceAddresses s' = deviceAddresses s
   \/ exists a, deviceAddresses s' = deviceAddresses s ++ [a]
        /\ is_Some (deviceTemperatures s' !! a)
        /\ is_Some (errorCounters s' !! a)
        /\ is_Some (connectedDevices s' !! a)) ->
  hasEntries s'.
Proof.
  intros I HT HE HC Ha a Hin.
  assert (Hold : a ∈ deviceAddresses s ->
                 is_Some (deviceTemperatures s' !! a)
                 /\ is_Some (errorCounters s' !! a)
                 /\ is_Some (connectedDevices s' !! a)).
  { intros Hin0. destruct (I a Hin0) as (I1 & I2 & I3).
    split; [apply HT; exact I1|]. split; [apply HE; exact I2|apply HC; exact I3]. }
  destruct Ha as [E|(x & E & H1 & H2 & H3)]; rewrite E in Hin; [exact (Hold Hin)|].
  apply elem_of_app in Hin as [Hin|Hin]; [exact (Hold Hin)|].
  apply list_elem_of_singleton in Hin. subst a. repeat split; assumption.
Qed.

Lemma is_Some_insert {V : Type} (m : gmap string V) k v a :
  is_Some (m !! a) -> is_Some (<[k := v]> m !! a).
Proof.
  intros H. destruct (decide (k = a)) as [->|Hne].
  - rewrite lookup_insert_eq. eauto.
  - rewrite lookup_insert_ne by exact Hne. exact H.
Qed.

Lemma hasEntries_handleSerialData data s :
  hasEntries s -> hasEntries (handleSerialData data s).
Proof.
  intros I.
  assert (Hfault : forall s0, hasEntries s0 -> hasEntries (handleCorruptedData s0)).
  { intros s0 I0.
    destruct (deviceAt s0) as [a|] eqn:Hat; [destruct (JS.isEmpty a) eqn:Hne|].
    - rewrite handleCorruptedData_unattributed; [exact I0|].
      right. rewrite Hat. destruct a; [reflexivity|discriminate].
    - destruct (handleCorruptedData_attributed s0 a Hat Hne)
        as (H1 & _ & H3 & H4 & H5 & _).
      apply (hasEntries_kept s0); [exact I0| | | |left; exact H3].
      + intros x. rewrite H4. tauto.
      + intros x. rewrite H1. apply is_Some_insert.
      + intros x. rewrite H5. tauto.
    - rewrite handleCorruptedData_unattributed; [exact I0|left; exact Hat]. }
  unfold handleSerialData. destruct (classify data) as [| | |message].
  - exact I.
  - apply Hfault. exact I.
  - apply Hfault. exact I.
  - set (s0 := log ("Received: " +:+ data) s).
    assert (I0 : hasEntries s0) by exact I.
    destruct (JS.includes JS.comma message && isRegistered s0 (addressField message))
      eqn:Hread.
    + apply andb_prop in Hread as [Hinc Hreg].
      destruct (handleMessage_reading message s0 Hinc Hreg)
        as (H1 & H2 & _ & H4 & H5 & _).
      apply (hasEntries_kept s0); [exact I0| | | |left; exact H4].
      * intros x. rewrite H1. apply is_Some_insert.
      * intros x. rewrite H2. apply is_Some_insert.
      * intros x. rewrite H5. tauto.
    + rewrite (handleMessage_announce _ _ Hread).
      destruct (negb (isConnected s0 message) && negb (isRegistered s0 message));
        [|exact I0].
      destruct (registerDevice_effect message s0) as (H1 & H2 & H3 & H4 & _).
      apply (hasEntries_kept s0); [exact I0| | | |].
      * intros x. rewrite H2. apply is_Some_insert.
      * intros x. rewrite H4. apply is_Some_insert.
      * intros x. rewrite H3. apply is_Some_insert.
      * right. exists message. split; [exact H1|].
        rewrite H2, H3, H4, !lookup_insert_eq. repeat split; eauto.
Qed.

(** The callbacks register nothing and remove no entry. *)
Lemma fire_registry task s :
  deviceAddresses (fire task s) = deviceAddresses s
  /\ deviceTemperatures (fire task s) = deviceTemperatures s.
Proof.
  destruct task as [| | |address i]; cbn [fire].
  - unfold startDiscovery. destruct (maxDiscoveryAttempts <=? _); split; reflexivity.
  - unfold discoveryCheck, startDiscovery, requestTemperature. fields.
    repeat (match goal with |- context [if ?b then _ else _] => destruct b end;
            fields); split; reflexivity.
  - unfold requestTemperature.
    destruct (_ || _); split; reflexivity.
  - unfold connectedLoop. destruct (_ <? _); split; reflexivity.
Qed.

Lemma fire_connectedDevices task s a :
  is_Some (connectedDevices s !! a) -> is_Some (connectedDevices (fire task s) !! a).
Proof.
  destruct task as [| | |address i]; cbn [fire].
  - unfold startDiscovery. destruct (maxDiscoveryAttempts <=? _); tauto.
  - unfold discoveryCheck, startDiscovery, requestTemperature. fields.
    repeat (match goal with |- context [if ?b then _ else _] => destruct b end;
            fields); tauto.
  - unfold requestTemperature.
    destruct (_ || _); tauto.
  - unfold connectedLoop. destruct (_ <? _); [tauto|]. fields. apply is_Some_insert.
Qed.

Lemma hasEntries_fire task s : hasEntries s -> hasEntries (fire task s).
Proof.
  intros I. destruct (fire_registry task s) as [Ha Ht].
  apply (hasEntries_kept s); [exact I| | | |left; exact Ha].
  - intros a. rewrite Ht. tauto.
  - intros a. rewrite fire_errorCounters. tauto.
  - intros a. apply fire_connectedDevices.
Qed.

Lemma hasEntries_step e s s' : step e s = Some s' -> hasEntries s -> hasEntries s'.
Proof.
  intros Hstep I. destruct e as [k|text|].
  - unfold step in Hstep. destruct (timers s !! k) as [[delay task]|]; [|discriminate Hstep].
    injection Hstep as <-. apply hasEntries_fire. exact I.
  - cbn [step] in Hstep. injection Hstep as <-. unfold receive, processSerialBuffer.
    set (s0 := setSerialBuffer _ (setSerialBuffer _ s)).
    assert (I0 : hasEntries s0) by exact I. clearbody s0.
    revert s0 I0. induction (completeLines _) as [|line lines IH]; intros s0 I0; [exact I0|].
    cbn [fold_left]. apply IH, hasEntries_handleSerialData. exact I0.
  - cbn [step] in Hstep. injection Hstep as <-. intros a Hin.
    unfold resetDiscovery in Hin. fields. inversion Hin.
Qed.

End EntriesFacts.

(** X18.  In every state that the engine reaches, resets included, every
    registered address has an entry in each dictionary: a temperature (the
    text [N/A] until the first reading), an error count and a confirmation
    flag.  So the lookups that the script makes for a registered device
    never yield [undefined]. *)
Theorem registered_devices_have_entries (events : list Event) (s : State) :
  run events connected = Some s ->
  forall address,
    address ∈ deviceAddresses s ->
    is_Some (deviceTemperatures s !! address)
    /\ is_Some (errorCounters s !! address)
    /\ is_Some (connectedDevices s !! address).
Proof.
  assert (Hrun : forall evs s0 s1,
            run evs s0 = Some s1 -> hasEntries s0 -> hasEntries s1).
  { induction evs as [|e evs IH]; intros s0 s1 Hrun I.
    - cbn [run] in Hrun. injection Hrun as <-. exact I.
    - cbn [run] in Hrun. destruct (step e s0) as [s2|] eqn:Hstep; [|discriminate Hrun].
      apply (IH s2 s1 Hrun). exact (hasEntries_step e s0 s2 Hstep I). }
  intros H. apply (Hrun events connected s H).
  intros a Hin. unfold connected, connectSerial, resetDiscovery in Hin. fields.
  inversion Hin.
Qed.

Lemma registered_devices_have_entries_witness :
  is_Some (deviceTemperatures oneDeviceFound !! "D1")
  /\ is_Some (errorCounters oneDeviceFound !! "D1")
  /\ is_Some (connectedDevices oneDeviceFound !! "D1").
Proof.
  apply (registered_devices_have_entries [Chunk (encode "D1")] oneDeviceFound).
  - reflexivity.
  - vm_compute. left.
Defined.

(* ===================================================================== *)
(** ** The cut of the output panel *)
(* ===================================================================== *)

Section PanelFacts.

Lemma join_cons_char sep c (piece : string) (pieces : list string) :
  JS.join sep (String c piece :: pieces) = String c (JS.join sep (piece :: pieces)).
Proof. destruct pieces; reflexivity. Qed.

Lemma join_split sep (str : string) : JS.join sep (JS.split sep str) = str.
Proof.
  induction str as [|c str IH]; [reflexivity|]. cbn [JS.split].
  destruct (Ascii.eqb c sep) eqn:Hc.
  - apply Ascii.eqb_eq in Hc. subst c.
    pose proof (split_nonempty sep str) as Hne.
    destruct (JS.split sep str) as [|p ps]; [congruence|].
    cbn [JS.join]. cbn [JS.join] in IH. rewrite IH. reflexivity.
  - pose proof (split_nonempty sep str) as Hne.
    destruct (JS.split sep str) as [|p ps]; [congruence|].
    rewrite join_cons_char, IH. reflexivity.
Qed.

Lemma split_piece_first sep (piece rest : string) :
  JS.includes sep piece = false ->
  JS.split sep (piece +:+ String sep rest) = piece :: JS.split sep rest.
Proof.
  induction piece as [|c piece IH].
  - intros _. rewrite sapp_nil_l. cbn [JS.split]. rewrite Ascii.eqb_refl. reflexivity.
  - cbn [JS.includes]. intros [Hc Hp]%orb_false_elim.
    rewrite sapp_cons. cbn [JS.split]. rewrite Hc, (IH Hp). reflexivity.
Qed.

Lemma split_join sep (pieces : list string) :
  pieces <> [] ->
  Forall (fun piece => JS.includes sep piece = false) pieces ->
  JS.split sep (JS.join sep pieces) = pieces.
Proof.
  induction pieces as [|p ps IH]; [congruence|]. intros _ Hall.
  inversion Hall as [|? ? Hp Hps]; subst.
  destruct ps as [|q ps]; [apply split_plain_sep; exact Hp|].
  change (JS.join sep (p :: q :: ps)) with (p +:+ String sep (JS.join sep (q :: ps))).
  rewrite (split_piece_first _ _ _ Hp), IH; [reflexivity|discriminate|exact Hps].
Qed.

Lemma join_app sep (l1 l2 : list string) :
  l1 <> [] -> l2 <> [] ->
  JS.join sep (l1 ++ l2) = JS.join sep l1 +:+ String sep (JS.join sep l2).
Proof.
  intros H1 H2. induction l1 as [|p l1 IH]; [congruence|].
  destruct l1 as [|q l1].
  - destruct l2 as [|r l2]; [congruence|]. reflexivity.
  - change (JS.join sep ((p :: q :: l1) ++ l2))
      with (p +:+ String sep (JS.join sep ((q :: l1) ++ l2))).
    rewrite IH by discriminate.
    change (JS.join sep (p :: q :: l1)) with (p +:+ String sep (JS.join sep (q :: l1))).
    rewrite sapp_assoc, sapp_cons. reflexivity.
Qed.

End PanelFacts.

(** X19.  The cut of the output panel drops text at the front only: the
    text that is kept is the end of the text before the cut, and it has as
    many pieces between line terminators as before, or 100 if there were
    more.  As every entry of the panel ends with a line terminator, the last
    of the 100 pieces is empty, so the cut leaves the 99 newest entries.
    Cutting twice is cutting once. *)
Theorem panel_cut_keeps_the_newest_text (textContent : string) :
  let pieces := JS.split JS.newline textContent in
  (exists dropped : string, textContent = dropped +:+ limitLines textContent)
  /\ JS.split JS.newline (limitLines textContent)
     = drop (length pieces - 100) pieces
  /\ length (JS.split JS.newline (limitLines textContent)) = Nat.min 100 (length pieces)
  /\ limitLines (limitLines textContent) = limitLines textContent.
Proof.
  intros pieces.
  assert (Hsplit : JS.split JS.newline (limitLines textContent)
                   = drop (length pieces - 100) pieces).
  { unfold limitLines. fold pieces. destruct (100 <? length pieces) eqn:Hlt.
    - apply Nat.ltb_lt in Hlt. apply split_join.
      + intros E. apply (f_equal length) in E. rewrite length_drop in E.
        cbn [length] in E. lia.
      + apply Forall_drop, split_pieces.
    - apply Nat.ltb_ge in Hlt.
      replace (length pieces - 100) with 0 by lia. reflexivity. }
  assert (Hlen : length (JS.split JS.newline (limitLines textContent))
                 = Nat.min 100 (length pieces)).
  { rewrite Hsplit, length_drop. lia. }
  split; [|split; [exact Hsplit|split; [exact Hlen|]]].
  - unfold limitLines. fold pieces. destruct (100 <? length pieces) eqn:Hlt.
    + apply Nat.ltb_lt in Hlt.
      exists (JS.join JS.newline (take (length pieces - 100) pieces)
              +:+ String JS.newline EmptyString).
      rewrite sapp_assoc, sapp_cons, sapp_nil_l, <- join_app.
      * rewrite take_drop. unfold pieces. rewrite join_split. reflexivity.
      * intros E. apply (f_equal length) in E. rewrite length_take in E.
        cbn [length] in E. lia.
      * intros E. apply (f_equal length) in E. rewrite length_drop in E.
        cbn [length] in E. lia.
    + exists EmptyString. rewrite sapp_nil_l. reflexivity.
  - unfold limitLines at 1.
    destruct (100 <? length (JS.split JS.newline (limitLines textContent))) eqn:Hlt;
      [|reflexivity].
    apply Nat.ltb_lt in Hlt. rewrite Hlen in Hlt. lia.
Qed.

(* ===================================================================== *)
(** ** White space around a line *)
(* ===================================================================== *)

Section WhiteSpaceFacts.

Lemma trimStart_white (white rest : string) :
  JS.allChars JS.isWhiteSpace white = true ->
  JS.trimStart (white +:+ rest) = JS.trimStart rest.
Proof.
  induction white as [|c white IH]; [intros _; rewrite sapp_nil_l; reflexivity|].
  cbn [JS.allChars]. intros [Hc Hw]%andb_prop.
  rewrite sapp_cons. cbn [JS.trimStart]. rewrite Hc. exact (IH Hw).
Qed.

Lemma trimEnd_white (white : string) :
  JS.allChars JS.isWhiteSpace white = true -> JS.trimEnd white = EmptyString.
Proof.
  induction white as [|c white IH]; [reflexivity|].
  cbn [JS.allChars]. intros [Hc Hw]%andb_prop.
  cbn [JS.trimEnd]. rewrite (IH Hw), Hc. reflexivity.
Qed.

Lemma trimEnd_app_white (text white : string) :
  JS.allChars JS.isWhiteSpace white = true ->
  JS.trimEnd (text +:+ white) = JS.trimEnd text.
Proof.
  intros Hw. induction text as [|c text IH].
  - rewrite sapp_nil_l. apply trimEnd_white, Hw.
  - rewrite sapp_cons. cbn [JS.trimEnd]. rewrite IH. reflexivity.
Qed.

End WhiteSpaceFacts.

(** X20.  [processSerialBuffer] trims every line: white space around a
    frame, such as the carriage return of a CR LF terminator or padding
    before the frame, changes nothing.  A frame surrounded by white space is
    handled as the frame alone, and a line of white space only is ignored
    without a trace. *)
Theorem surrounding_white_space_is_ignored
    (before after message : string) (s : State) :
  JS.allChars JS.isWhiteSpace before = true ->
  JS.allChars JS.isWhiteSpace after = true ->
  JS.startsWithWhiteSpace message = false ->
  JS.trim (before +:+ frameLine message +:+ after) = frameLine message
  /\ classify (JS.trim (before +:+ frameLine message +:+ after)) = Valid message
  /\ handleSerialData (JS.trim (before +:+ after)) s = s.
Proof.
  intros Hb Ha Hstart.
  assert (Htrim : JS.trim (before +:+ frameLine message +:+ after) = frameLine message).
  { unfold JS.trim. rewrite (trimStart_white _ _ Hb).
    assert (Hclean : JS.trimStart (frameLine message +:+ after)
                     = frameLine message +:+ after).
    { apply trimStart_clean. unfold frameLine.
      destruct message as [|c message]; [reflexivity|].
      rewrite !sapp_cons. exact Hstart. }
    rewrite Hclean, (trimEnd_app_white _ _ Ha).
    pose proof (trim_frameLine message Hstart) as H. unfold JS.trim in H.
    rewrite (trimStart_clean (frameLine message)) in H; [exact H|].
    unfold frameLine. destruct message as [|c message]; [reflexivity|].
    rewrite !sapp_cons. exact Hstart. }
  split; [exact Htrim|]. split; [rewrite Htrim; apply classify_frameLine|].
  unfold JS.trim. rewrite (trimStart_white _ _ Hb).
  assert (He : JS.trimEnd (JS.trimStart after) = EmptyString).
  { clear - Ha. induction after as [|c after IH]; [reflexivity|].
    cbn [JS.allChars] in Ha. apply andb_prop in Ha as [Hc Hw].
    cbn [JS.trimStart]. rewrite Hc. exact (IH Hw). }
  rewrite He. reflexivity.
Qed.

Lemma surrounding_white_space_is_ignored_witness :
  classify (JS.trim ("  " +:+ frameLine "D1,23.5" +:+ String (ascii_of_nat 13) EmptyString))
  = Valid "D1,23.5".
Proof.
  apply (surrounding_white_space_is_ignored
           "  " (String (ascii_of_nat 13) EmptyString) "D1,23.5" connected);
    vm_compute; reflexivity.
Defined.
